(** * mybb_extractor: the row tokenizer and the record normalizer of [parse.py]

    A shallow embedding of [parse_values_line], [process_user] and the
    processing loop of [main], with the properties of the specification
    stated and proved over it.

    Python strings are modelled as [string]; a character is a code point
    below 256.  On that range the whitespace of [str.strip] and of the
    regular expression class [\s] is the set recognised by [Py.isspace]. *)

From Stdlib Require Import Bool Arith Lia List ZArith Ascii String DecimalString.
Import ListNotations.
Open Scope string_scope.

(** ** Python builtins used by the program *)

Module Py.

Definition code (c : ascii) : N := N_of_ascii c.

(** [str.isspace] on one character, also the class [\s] of [re]. *)
Definition isspace (c : ascii) : bool :=
  match code c with
  | 9 | 10 | 11 | 12 | 13 | 28 | 29 | 30 | 31 | 32 | 133 | 160 => true
  | _ => false
  end%N.

Fixpoint lstrip (s : string) : string :=
  match s with
  | String c r => if isspace c then lstrip r else s
  | EmptyString => EmptyString
  end.

Fixpoint rstrip (s : string) : string :=
  match s with
  | EmptyString => EmptyString
  | String c r =>
      match rstrip r with
      | EmptyString => if isspace c then EmptyString else String c EmptyString
      | r' => String c r'
      end
  end.

(** [s.strip()] *)
Definition strip (s : string) : string := rstrip (lstrip s).

(** [bool(s)] for a string: true when it is not empty. *)
Definition truthy (s : string) : bool :=
  match s with EmptyString => false | String _ _ => true end.

(** Index normalisation of a slice bound: a negative bound counts from
    the end, and every bound is clamped to [0, len]. *)
Definition clamp (len i : Z) : Z :=
  if (i <? 0)%Z then Z.max 0 (i + len) else Z.min i len.

(** [s[lo:hi]] *)
Definition slice (s : string) (lo hi : Z) : string :=
  let n := Z.of_nat (length s) in
  let a := clamp n lo in
  let b := clamp n hi in
  substring (Z.to_nat a) (Z.to_nat (b - a)) s.

(** [s[lo:]] *)
Definition slice_from (s : string) (lo : Z) : string :=
  slice s lo (Z.of_nat (length s)).

(** [s.startswith(p)] *)
Definition startswith (p s : string) : bool := prefix p s.

(** [s.endswith(p)] *)
Definition endswith (p s : string) : bool :=
  (length p <=? length s)%nat &&
  (substring (length s - length p) (length p) s =? p)%string.

(** [c.lower()] for one character: the letters A-Z and the accented
    capitals C0-DE, the multiplication sign D7 apart. *)
Definition char_lower (c : ascii) : ascii :=
  let n := code c in
  if ((65 <=? n) && (n <=? 90) ||
      (192 <=? n) && (n <=? 222) && negb (n =? 215))%N
  then ascii_of_N (n + 32) else c.

(** [s.lower()] *)
Fixpoint lower (s : string) : string :=
  match s with
  | EmptyString => EmptyString
  | String c r => String (char_lower c) (lower r)
  end.

(** [c in s] *)
Fixpoint contains (c : ascii) (s : string) : bool :=
  match s with
  | EmptyString => false
  | String d r => (d =? c)%char || contains c r
  end.

(** [sep.join(l)] *)
Definition join (sep : string) (l : list string) : string := concat sep l.

(** [str(n)] for an integer. *)
Definition str_of_int (n : Z) : string := NilZero.string_of_int (Z.to_int n).

(** [range(lo, hi, step)] for a positive step. *)
Fixpoint range_from (fuel lo hi step : nat) : list nat :=
  match fuel with
  | O => []
  | S f => if (lo <? hi)%nat then lo :: range_from f (lo + step) hi step else []
  end.

Definition range (lo hi step : nat) : list nat := range_from hi lo hi step.

End Py.

(** ** The regular expression of [parse_values_line]

    [re.search] with the flags [re.DOTALL | re.IGNORECASE] and the pattern
    whose pieces are, in order: the literal VALUES, [\s*], an opening
    parenthesis, group 1 (any characters, greedy), a closing parenthesis,
    an optional semicolon, [\s*] and the end anchor.  Each piece is one
    function below, written with the order of attempts of a backtracking
    matcher: a greedy repetition tries the longer match first.  The result
    is group 1. *)

Module Regex.

(** One literal of the pattern under [re.IGNORECASE]. *)
Definition ci_eq (p c : ascii) : bool :=
  (Py.char_lower c =? Py.char_lower p)%char.

(** [$] without [re.MULTILINE]: the end of the string, or just before a
    newline that ends the string. *)
Definition at_end (s : string) : bool :=
  match s with
  | EmptyString => true
  | String c EmptyString => (c =? "010")%char
  | _ => false
  end.

(** Whitespace, greedy, then the end anchor. *)
Fixpoint spaces_end (s : string) : bool :=
  match s with
  | String c r => (Py.isspace c && spaces_end r) || at_end s
  | EmptyString => at_end s
  end.

(** An optional semicolon, then whitespace and the end anchor. *)
Definition semi_spaces_end (s : string) : bool :=
  match s with
  | String c r => ((c =? ";")%char && spaces_end r) || spaces_end s
  | EmptyString => spaces_end s
  end.

(** The closing parenthesis and what follows it. *)
Definition close_tail (s : string) : bool :=
  match s with
  | String c r => (c =? ")")%char && semi_spaces_end r
  | EmptyString => false
  end.

(** Group 1 under [re.DOTALL] and the rest of the pattern: the longest
    group first. *)
Fixpoint group_tail (s : string) : option string :=
  match s with
  | String c r =>
      match group_tail r with
      | Some g => Some (String c g)
      | None => if close_tail s then Some EmptyString else None
      end
  | EmptyString => None
  end.

(** Whitespace, the opening parenthesis, then group 1 and the rest. *)
Fixpoint spaces_open (s : string) : option string :=
  match s with
  | String c r =>
      match (if Py.isspace c then spaces_open r else None) with
      | Some g => Some g
      | None => if (c =? "(")%char then group_tail r else None
      end
  | EmptyString => None
  end.

(** The literal [VALUES]: what follows it in [s], when [s] starts with it. *)
Fixpoint keyword (kw s : string) : option string :=
  match kw, s with
  | EmptyString, _ => Some s
  | String k kw', String c r => if ci_eq k c then keyword kw' r else None
  | String _ _, EmptyString => None
  end.

(** The whole pattern, anchored at the start of [s]. *)
Definition match_here (s : string) : option string :=
  match keyword "VALUES" s with
  | Some r => spaces_open r
  | None => None
  end.

(** [re.search]: the leftmost position at which the pattern matches. *)
Fixpoint search (s : string) : option string :=
  match match_here s with
  | Some g => Some g
  | None =>
      match s with
      | String _ r => search r
      | EmptyString => None
      end
  end.

End Regex.

(** ** [parse_values_line] *)

(** The three variables of the scanning loop. *)
Record scan_state := mk_scan {
  fields : list string;
  current : string;
  in_quote : bool
}.

(** One iteration of [for char in values_str]. *)
Definition scan_char (st : scan_state) (char : ascii) : scan_state :=
  let q := if (char =? "'")%char then negb (in_quote st) else in_quote st in
  if (char =? ",")%char && negb q
  then mk_scan (fields st ++ [Py.strip (current st)])%list "" q
  else mk_scan (fields st) (current st ++ String char "") q.

Fixpoint scan (st : scan_state) (values_str : string) : scan_state :=
  match values_str with
  | EmptyString => st
  | String char r => scan (scan_char st char) r
  end.

(** [if current: fields.append(current.strip())] *)
Definition flush (st : scan_state) : list string :=
  if Py.truthy (current st)
  then (fields st ++ [Py.strip (current st)])%list
  else fields st.

(** [f[1:-1] if f.startswith("'") and f.endswith("'") else f] *)
Definition unwrap (f : string) : string :=
  if Py.startswith "'" f && Py.endswith "'" f then Py.slice f 1 (-1) else f.

(** The fields of the captured text: the loop, the flush, the unwrapping. *)
Definition split_fields (values_str : string) : list string :=
  map unwrap (flush (scan (mk_scan [] "" false) values_str)).

Definition parse_values_line (line : string) : option (list string) :=
  match Regex.search line with
  | None => None
  | Some values_str => Some (split_fields values_str)
  end.

(** ** Exceptions *)

Inductive exn := ValueError | TypeError | IndexError | OverflowError | OSError.

Inductive outcome (A : Type) : Type :=
| Ok (a : A)
| Raise (e : exn).

Arguments Ok {A} a.
Arguments Raise {A} e.

Definition bind {A B : Type} (m : outcome A) (k : A -> outcome B) : outcome B :=
  match m with
  | Ok a => k a
  | Raise e => Raise e
  end.

Notation "x <- m ;; k" := (bind m (fun x => k))
  (at level 61, m at next level, right associativity).

(** An [except (handled): pass] clause reached with the exception [e]:
    the state [v] is kept if the clause handles [e], and [e] goes on
    otherwise. *)
Definition except {A : Type} (handled : exn -> bool) (e : exn) (v : A)
    : outcome A :=
  if handled e then Ok v else Raise e.

(** [try: body / except (handled): fallback] *)
Definition try_except {A : Type} (body : outcome A) (handled : exn -> bool)
    (fallback : outcome A) : outcome A :=
  match body with
  | Ok a => Ok a
  | Raise e => if handled e then fallback else Raise e
  end.

(** ** Number parsing: [int(s, 16)] and the syntax of [float(s)] *)

Module PyNum.

(** The whitespace of the number parsers: the six ASCII characters of the
    C locale, and the non-ASCII spaces, which are first rewritten into a
    blank.  The separators 1C-1F are whitespace for [str.strip] but not
    here. *)
Definition isspace (c : ascii) : bool :=
  match Py.code c with
  | 9 | 10 | 11 | 12 | 13 | 32 | 133 | 160 => true
  | _ => false
  end%N.

Fixpoint skip_spaces (s : string) : string :=
  match s with
  | String c r => if isspace c then skip_spaces r else s
  | EmptyString => EmptyString
  end.

Definition hex_digit (c : ascii) : option Z :=
  let n := Z.of_N (Py.code c) in
  if ((48 <=? n) && (n <=? 57))%Z then Some (n - 48)%Z
  else if ((97 <=? n) && (n <=? 102))%Z then Some (n - 87)%Z
  else if ((65 <=? n) && (n <=? 70))%Z then Some (n - 55)%Z
  else None.

(** The digit loop of a power-of-two base: digits with single underscores
    between them.  Returns the value, whether a digit was read, and the
    rest; [None] on a doubled or trailing underscore. *)
Fixpoint scan_hex (acc : Z) (prev_us any : bool) (s : string)
    : option (Z * bool * string) :=
  match s with
  | String c r =>
      match hex_digit c with
      | Some d => scan_hex (acc * 16 + d)%Z false true r
      | None =>
          if (c =? "_")%char
          then (if prev_us then None else scan_hex acc true any r)
          else if prev_us then None else Some (acc, any, s)
      end
  | EmptyString => if prev_us then None else Some (acc, any, EmptyString)
  end.

Definition take_sign (s : string) : bool * string :=
  match s with
  | String "+" r => (false, r)
  | String "-" r => (true, r)
  | _ => (false, s)
  end.

(** The prefix 0x or 0X of base 16, with the one underscore allowed
    after it. *)
Definition take_0x (s : string) : string :=
  match s with
  | String "0" (String x r) =>
      if (x =? "x")%char || (x =? "X")%char
      then match r with String "_" r' => r' | _ => r end
      else s
  | _ => s
  end.

(** [int(s, 16)]; [None] is [ValueError]. *)
Definition int16 (s : string) : option Z :=
  let (neg, s1) := take_sign (skip_spaces s) in
  let s2 := take_0x s1 in
  match s2 with
  | String "_" _ => None
  | _ =>
      match scan_hex 0 false false s2 with
      | Some (v, true, rest) =>
          match skip_spaces rest with
          | EmptyString => Some (if neg then (- v)%Z else v)
          | String _ _ => None
          end
      | _ => None
      end
  end.

Definition is_digit (c : ascii) : bool :=
  let n := Py.code c in ((48 <=? n) && (n <=? 57))%N.

(** Underscores of a float literal: each one between two digits; they are
    removed before the literal is parsed. *)
Fixpoint drop_underscores (prev : ascii) (s : string) : option string :=
  match s with
  | EmptyString => if (prev =? "_")%char then None else Some EmptyString
  | String c r =>
      if (c =? "_")%char
      then (if is_digit prev then drop_underscores c r else None)
      else if (prev =? "_")%char && negb (is_digit c) then None
      else option_map (String c) (drop_underscores c r)
  end.

Fixpoint rstrip_spaces (s : string) : string :=
  match s with
  | EmptyString => EmptyString
  | String c r =>
      match rstrip_spaces r with
      | EmptyString => if isspace c then EmptyString else String c EmptyString
      | r' => String c r'
      end
  end.

Fixpoint skip_digits (s : string) : nat * string :=
  match s with
  | String c r =>
      if is_digit c then let (n, r') := skip_digits r in (S n, r') else (O, s)
  | EmptyString => (O, EmptyString)
  end.

(** The decimal literal read by [strtod]: digits, an optional point and
    digits, then an exponent when one is complete.  Returns what follows
    the literal; [None] when there is no digit. *)
Definition parse_decimal (s : string) : option string :=
  let (n1, s1) := skip_digits s in
  let (n2, s2) :=
    match s1 with
    | String "." r => skip_digits r
    | _ => (O, s1)
    end in
  if (n1 + n2 =? 0)%nat then None
  else
    match s2 with
    | String e r =>
        if (e =? "e")%char || (e =? "E")%char
        then
          let (n3, s3) := skip_digits (snd (take_sign r)) in
          if (n3 =? 0)%nat then Some s2 else Some s3
        else Some s2
    | EmptyString => Some EmptyString
    end.

(** [tolower] of the C locale. *)
Definition c_tolower (c : ascii) : ascii :=
  let n := Py.code c in
  if ((65 <=? n) && (n <=? 90))%N then ascii_of_N (n + 32) else c.

Fixpoint c_lower (s : string) : string :=
  match s with
  | EmptyString => EmptyString
  | String c r => String (c_tolower c) (c_lower r)
  end.

(** What a string accepted by [float] denotes. *)
Inductive float_class := FNum | FInf | FNan.

(** The syntax of [float(s)]; [None] is [ValueError]. *)
Definition float_syntax (s : string) : option float_class :=
  match drop_underscores "000" s with
  | None => None
  | Some s1 =>
      let body := snd (take_sign (rstrip_spaces (skip_spaces s1))) in
      match parse_decimal body with
      | Some EmptyString => Some FNum
      | Some (String _ _) => None
      | None =>
          let l := c_lower body in
          if (l =? "inf")%string || (l =? "infinity")%string then Some FInf
          else if (l =? "nan")%string then Some FNan
          else None
      end
  end.

End PyNum.

(** ** [process_user]

    The result is the pair returned by the function, a record or [None]
    with an error text or [None], or the exception that leaves it. *)

Record user := mk_user {
  username : string;
  email : string;
  created_date : string;
  created_time : string;
  last_ip : string;
  password_hash : string
}.

(** [l[i]] for a constant index that is not negative. *)
Definition index (l : list string) (i : nat) : outcome string :=
  match nth_error l i with
  | Some x => Ok x
  | None => Raise IndexError
  end.

(** [hex_ip[i:i+2] for i in range(0, len(hex_ip), 2)] *)
Definition hex_groups (hex_ip : string) : list string :=
  map (fun i => Py.slice hex_ip (Z.of_nat i) (Z.of_nat i + 2))
      (Py.range 0 (length hex_ip) 2).

(** The generator given to [join]: the first group that [int] rejects
    raises. *)
Fixpoint group_values (gs : list string) : outcome (list Z) :=
  match gs with
  | [] => Ok []
  | g :: r =>
      match PyNum.int16 g with
      | None => Raise ValueError
      | Some v => vs <- group_values r ;; Ok (v :: vs)
      end
  end.

Definition handles_hex (e : exn) : bool :=
  match e with ValueError | IndexError => true | _ => false end.

Definition handles_date (e : exn) : bool :=
  match e with ValueError | TypeError => true | _ => false end.

(** The block under the comment "Convert hex IP to decimal". *)
Definition convert_ip (lastip : string) : outcome string :=
  if Py.startswith "0x" (Py.lower lastip)
  then
    try_except
      (let hex_ip := Py.slice_from lastip 2 in
       vs <- group_values (hex_groups hex_ip) ;;
       Ok (Py.join "." (map Py.str_of_int vs)))
      handles_hex
      (Ok ("(bad hex: " ++ lastip ++ ")"))
  else Ok lastip.

(** The platform stays outside the model.  [strtod_trunc s] is the
    integer part of the double that the decimal literal [s] rounds to,
    [None] when it rounds to an infinity; [localtime] and [strftime] are
    the functions of the module [time], which depend on the time zone and
    on the range of the platform's [time_t], over the type [tm] of a
    broken-down time. *)
Record platform := mk_platform {
  strtod_trunc : string -> option Z;
  tm : Type;
  localtime : Z -> outcome tm;
  strftime : string -> tm -> outcome string
}.

Section Normalizer.

Variable P : platform.

(** [int(float(regdate))] *)
Definition int_float (regdate : string) : outcome Z :=
  match PyNum.float_syntax regdate with
  | None => Raise ValueError
  | Some PyNum.FNan => Raise ValueError
  | Some PyNum.FInf => Raise OverflowError
  | Some PyNum.FNum =>
      match strtod_trunc P regdate with
      | Some ts => Ok ts
      | None => Raise OverflowError
      end
  end.

(** The block under the comment "Split human readable date/time": the
    two variables keep the value they have when an exception is caught. *)
Definition split_datetime (regdate : string) : outcome (string * string) :=
  let created_date := "(invalid)" in
  let created_time := "(invalid)" in
  match (ts <- int_float regdate ;; localtime P ts) with
  | Raise e => except handles_date e (created_date, created_time)
  | Ok dt =>
      match strftime P "%Y-%m-%d" dt with
      | Raise e => except handles_date e (created_date, created_time)
      | Ok created_date =>
          match strftime P "%H:%M:%S" dt with
          | Raise e => except handles_date e (created_date, created_time)
          | Ok created_time => Ok (created_date, created_time)
          end
      end
  end.

Definition process_user (fields : list string)
    : outcome (option user * option string) :=
  match
    (username <- index fields 1 ;;
     email <- index fields 5 ;;
     regdate <- index fields 15 ;;
     lastip <- index fields 64 ;;
     pwhash <- index fields 2 ;;
     Ok (username, email, regdate, lastip, pwhash))
  with
  | Raise IndexError => Ok (None, Some "Not enough fields")
  | Raise e => Raise e
  | Ok (username, email, regdate, lastip, pwhash) =>
      dt <- split_datetime regdate ;;
      ip_final <- convert_ip lastip ;;
      Ok (Some (mk_user username email (fst dt) (snd dt) ip_final pwhash),
          None)
  end.

(** ** The loop of [main] *)

Inductive event :=
| CsvRow (u : user)
| ConsoleUser (u : user)
| Progress (processed valid_users : nat).

Record loop_state := mk_loop {
  processed : nat;
  valid_users : nat;
  output : list event
}.

(** [if error:] on the second component: [None] and the empty string are
    false. *)
Definition error_set (error : option string) : bool :=
  match error with
  | None => false
  | Some msg => Py.truthy msg
  end.

(** What follows the test of [error] in the body of the loop: the first
    counter, the row or the block of text, the second counter, the
    progress line.  Writing and printing are taken to succeed; reading a
    key of [user_data] when it is [None] raises [TypeError]. *)
Definition emit (csv : bool) (st : loop_state) (user_data : option user)
    : outcome loop_state :=
  match user_data with
  | None => Raise TypeError
  | Some u =>
      let valid := S (valid_users st) in
      let out :=
        (output st ++ [if csv then CsvRow u else ConsoleUser u])%list in
      let done := S (processed st) in
      if (done mod 500 =? 0)%nat && negb csv
      then Ok (mk_loop done valid (out ++ [Progress done valid])%list)
      else Ok (mk_loop done valid out)
  end.

(** One iteration of [for line_num, line in enumerate(f, 1)]; [csv] says
    whether a [csv_writer] is open. *)
Definition loop_body (csv : bool) (st : loop_state) (line : string)
    : outcome loop_state :=
  let line := Py.strip line in
  if negb (Py.truthy line) || negb (Py.contains "@" line) then Ok st
  else
    match parse_values_line line with
    | None => Ok st
    | Some fields =>
        if (List.length fields =? 0)%nat || (List.length fields <=? 64)%nat
        then Ok st
        else
          r <- process_user fields ;;
          if error_set (snd r) then Ok st else emit csv st (fst r)
    end.

(** The loop: the state it stops in, and the exception that stopped it,
    if any. *)
Fixpoint main_loop (csv : bool) (st : loop_state) (lines : list string)
    : loop_state * option exn :=
  match lines with
  | [] => (st, None)
  | line :: rest =>
      match loop_body csv st line with
      | Ok st' => main_loop csv st' rest
      | Raise e => (st, Some e)
      end
  end.

(** The states after each iteration that completes. *)
Fixpoint loop_trace (csv : bool) (st : loop_state) (lines : list string)
    : list loop_state :=
  match lines with
  | [] => []
  | line :: rest =>
      match loop_body csv st line with
      | Ok st' => st' :: loop_trace csv st' rest
      | Raise _ => []
      end
  end.

Definition initial : loop_state := mk_loop 0 0 [].

End Normalizer.

(** ** An instance of the platform

    CPython 3.11 on Linux with the GNU C library, in the UTC zone.
    [strtod_trunc] rounds the decimal literal to the nearest double, ties
    to even, and truncates it.  [localtime] accepts the timestamps of a
    64-bit [time_t] whose year fits the [int] of a broken-down time, and
    [strftime] the years that fit an [int]; it knows the six directives
    of the program.  The instance is used to run the model on examples. *)

Module Demo.

(** The digits at the head of [s]: their value after [acc], their number
    after [n], and what follows them. *)
Fixpoint read_digits (acc : Z) (n : nat) (s : string) : Z * nat * string :=
  match s with
  | EmptyString => (acc, n, EmptyString)
  | String c r =>
      if PyNum.is_digit c
      then read_digits (acc * 10 + (Z.of_N (Py.code c) - 48))%Z (S n) r
      else (acc, n, s)
  end.

(** A literal accepted as a number by [float]: its sign, and [m] and [e]
    such that its magnitude is [m] times 10 to the power [e]. *)
Definition read_decimal (s : string) : option (bool * Z * Z) :=
  match PyNum.drop_underscores "000" s with
  | None => None
  | Some s1 =>
      let (neg, body) :=
        PyNum.take_sign (PyNum.rstrip_spaces (PyNum.skip_spaces s1)) in
      let '(m1, _, r1) := read_digits 0 0 body in
      let '(m, n2, r2) :=
        match r1 with
        | String "." r => read_digits m1 0 r
        | _ => (m1, O, r1)
        end in
      let e :=
        match r2 with
        | String c r =>
            if (c =? "e")%char || (c =? "E")%char
            then
              let (eneg, r3) := PyNum.take_sign r in
              let '(ev, _, _) := read_digits 0 0 r3 in
              if eneg then (- ev)%Z else ev
            else 0%Z
        | EmptyString => 0%Z
        end in
      Some (neg, m, (e - Z.of_nat n2)%Z)
  end.

(** The integer part of the double nearest to [m] times 10 to the power
    [e10], for [m] not negative; [None] when that double is an infinity.
    The double is [q] times 2 to the power [k], with 53 bits in [q]
    unless [k] is the least exponent, -1074. *)
Definition round_trunc (m e10 : Z) : option Z :=
  if (m =? 0)%Z then Some 0%Z
  else
    let num := (if 0 <=? e10 then m * 10 ^ e10 else m)%Z in
    let den := (if 0 <=? e10 then 1 else 10 ^ (- e10))%Z in
    let l0 := (Z.log2 num - Z.log2 den)%Z in
    let reached :=
      (if 0 <=? l0 then den * 2 ^ l0 <=? num
       else den <=? num * 2 ^ (- l0))%Z in
    let l := (if reached then l0 else l0 - 1)%Z in
    let k := Z.max (l - 52) (-1074) in
    let n2 := (if 0 <=? k then num else num * 2 ^ (- k))%Z in
    let d2 := (if 0 <=? k then den * 2 ^ k else den)%Z in
    let q := (n2 / d2)%Z in
    let r := (n2 mod d2)%Z in
    let q' :=
      (if (d2 <? 2 * r) || ((2 * r =? d2) && Z.odd q) then q + 1 else q)%Z in
    if ((0 <=? k) && (2 ^ 1024 <=? q' * 2 ^ k))%Z then None
    else Some (if 0 <=? k then q' * 2 ^ k else q' / 2 ^ (- k))%Z.

(** Used on the literals that [float] reads as numbers. *)
Definition strtod_trunc (s : string) : option Z :=
  match read_decimal s with
  | None => None
  | Some (neg, m, e10) =>
      match round_trunc m e10 with
      | None => None
      | Some t => Some (if neg then (- t)%Z else t)
      end
  end.

Definition pad2 (n : Z) : string :=
  if (n <? 10)%Z then "0" ++ Py.str_of_int n else Py.str_of_int n.

(** Year, month and day of a count of days since 1970-01-01. *)
Definition civil (days : Z) : Z * Z * Z :=
  let z := (days + 719468)%Z in
  let era := (z / 146097)%Z in
  let doe := (z - era * 146097)%Z in
  let yoe := ((doe - doe / 1460 + doe / 36524 - doe / 146096) / 365)%Z in
  let doy := (doe - (365 * yoe + yoe / 4 - yoe / 100))%Z in
  let mp := ((5 * doy + 2) / 153)%Z in
  let d := (doy - (153 * mp + 2) / 5 + 1)%Z in
  let m := (if (mp <? 10)%Z then mp + 3 else mp - 9)%Z in
  let y := (yoe + era * 400 + (if (m <=? 2)%Z then 1 else 0))%Z in
  (y, m, d).

Record tm := mk_tm {
  tm_year : Z; tm_mon : Z; tm_mday : Z;
  tm_hour : Z; tm_min : Z; tm_sec : Z
}.

(** [time.localtime]: [OverflowError] outside a 64-bit [time_t],
    [OSError] when the year less 1900 does not fit an [int]. *)
Definition localtime (ts : Z) : outcome tm :=
  if ((ts <? - 2 ^ 63) || (2 ^ 63 <=? ts))%Z then Raise OverflowError
  else
    let '(y, m, d) := civil (ts / 86400) in
    if ((y - 1900 <? - 2 ^ 31) || (2 ^ 31 <=? y - 1900))%Z
    then Raise OSError
    else
      let secs := (ts mod 86400)%Z in
      Ok (mk_tm y m d (secs / 3600) (secs mod 3600 / 60) (secs mod 60)).

Definition directive (c : ascii) (t : tm) : string :=
  match c with
  | "Y"%char => Py.str_of_int (tm_year t)
  | "m"%char => pad2 (tm_mon t)
  | "d"%char => pad2 (tm_mday t)
  | "H"%char => pad2 (tm_hour t)
  | "M"%char => pad2 (tm_min t)
  | "S"%char => pad2 (tm_sec t)
  | _ => String "%" (String c "")
  end.

Fixpoint format (fmt : string) (t : tm) : string :=
  match fmt with
  | String "%" (String c r) => directive c t ++ format r t
  | String c r => String c (format r t)
  | EmptyString => EmptyString
  end.

(** [time.strftime]: [OverflowError] when the year does not fit an
    [int]. *)
Definition strftime (fmt : string) (t : tm) : outcome string :=
  if (2 ^ 31 <=? tm_year t)%Z then Raise OverflowError
  else Ok (format fmt t).

Definition utc : platform := mk_platform strtod_trunc tm localtime strftime.

Definition split_datetime := split_datetime utc.
Definition process_user := process_user utc.
Definition main_loop := main_loop utc.

(** A row of 65 fields with the five fields that are read at their
    positions and zeros elsewhere. *)
Definition row (name pwhash mail regdate lastip : string) : list string :=
  ["1"; name; pwhash; "0"; "0"; mail] ++ repeat "0" 9 ++ [regdate]
    ++ repeat "0" 48 ++ [lastip].

(** The line of a dump for a row of cells. *)
Definition insert_line (cells : list string) : string :=
  "INSERT INTO mybb_users VALUES (" ++ concat "," cells ++ ");".

End Demo.

(** ** Notions of the specification *)

Module Spec.

Fixpoint all_spaces (s : string) : bool :=
  match s with
  | EmptyString => true
  | String c r => Py.isspace c && all_spaces r
  end.

(** A line contains the clause: the keyword VALUES in any case, then
    whitespace, a parenthesised text, an optional semicolon and whitespace
    up to the end of the line. *)
Definition has_values_clause (line : string) : Prop :=
  exists before kw gap inner semi trail,
    line = before ++ kw ++ gap ++ "(" ++ inner ++ ")" ++ semi ++ trail /\
    Py.lower kw = "values" /\
    all_spaces gap = true /\
    (semi = "" \/ semi = ";") /\
    all_spaces trail = true.

(** The number of commas of [s] in unquoted context; [q] says whether
    the scan starts inside a quoted region. *)
Fixpoint unquoted_commas (q : bool) (s : string) : nat :=
  match s with
  | EmptyString => O
  | String c r =>
      if (c =? "'")%char then unquoted_commas (negb q) r
      else if (c =? ",")%char && negb q then S (unquoted_commas q r)
      else unquoted_commas q r
  end.

(** Whether the scan of [s], started in state [q], ends inside a quoted
    region. *)
Fixpoint end_quote (q : bool) (s : string) : bool :=
  match s with
  | EmptyString => q
  | String c r => end_quote (if (c =? "'")%char then negb q else q) r
  end.

(** The pieces of [s] between its unquoted commas, in order: one more
    than there are such commas. *)
Fixpoint segments (q : bool) (s : string) : list string :=
  match s with
  | EmptyString => [EmptyString]
  | String c r =>
      if (c =? "'")%char then
        match segments (negb q) r with
        | seg :: rest => String c seg :: rest
        | [] => [String c EmptyString]
        end
      else if (c =? ",")%char && negb q then EmptyString :: segments q r
      else
        match segments q r with
        | seg :: rest => String c seg :: rest
        | [] => [String c EmptyString]
        end
  end.

(** The text after the last unquoted comma. *)
Definition trailing_text (s : string) : string :=
  last (segments false s) EmptyString.

(** A value of a well-formed tuple: a quoted string whose body has no
    quote, or a bare token such as a number or NULL; blanks may surround
    it. *)
Inductive literal :=
| Quoted (body : string)
| Bare (token : string).

Record value := mk_value {
  pad_left : string;
  lit : literal;
  pad_right : string
}.

Definition first_char (s : string) : option ascii :=
  match s with
  | EmptyString => None
  | String c _ => Some c
  end.

Fixpoint last_char (s : string) : option ascii :=
  match s with
  | EmptyString => None
  | String c EmptyString => Some c
  | String _ r => last_char r
  end.

Definition not_space (o : option ascii) : bool :=
  match o with
  | None => false
  | Some c => negb (Py.isspace c)
  end.

Definition wf_literal (l : literal) : bool :=
  match l with
  | Quoted body => negb (Py.contains "'" body)
  | Bare token =>
      negb (Py.contains "'" token) && negb (Py.contains "," token) &&
      not_space (first_char token) && not_space (last_char token)
  end.

Definition wf_value (v : value) : bool :=
  all_spaces (pad_left v) && wf_literal (lit v) && all_spaces (pad_right v).

Definition render_literal (l : literal) : string :=
  match l with
  | Quoted body => "'" ++ body ++ "'"
  | Bare token => token
  end.

Definition render (v : value) : string :=
  pad_left v ++ render_literal (lit v) ++ pad_right v.

(** The text between the parentheses. *)
Definition render_tuple (vs : list value) : string :=
  concat "," (map render vs).

(** The field a value stands for. *)
Definition payload (v : value) : string :=
  match lit v with
  | Quoted body => body
  | Bare token => token
  end.

(** A hexadecimal byte string: pairs of hex digits from the left, each
    pair read as a number in base 16.  [None] when the length is odd or a
    character is not a hex digit. *)
Fixpoint hex_pairs (s : string) : option (list Z) :=
  match s with
  | EmptyString => Some []
  | String _ EmptyString => None
  | String a (String b r) =>
      match PyNum.hex_digit a, PyNum.hex_digit b, hex_pairs r with
      | Some x, Some y, Some l => Some ((16 * x + y)%Z :: l)
      | _, _, _ => None
      end
  end.

(** Dotted-decimal notation. *)
Definition dotted (vs : list Z) : string :=
  Py.join "." (map Py.str_of_int vs).

(** The groups of two characters from the left; the last group has one
    character when the length is odd. *)
Fixpoint groups_of_two (s : string) : list string :=
  match s with
  | EmptyString => []
  | String a EmptyString => [String a EmptyString]
  | String a (String b r) => String a (String b EmptyString) :: groups_of_two r
  end.

Definition is_hex (c : ascii) : bool :=
  match PyNum.hex_digit c with Some _ => true | None => false end.



Definition all_ascii : list ascii := map ascii_of_nat (seq 0 256).


(** A body in which every quote is doubled, as SQL writes a quote inside
    a string. *)
Fixpoint sql_escaped (s : string) : bool :=
  match s with
  | EmptyString => true
  | String c r =>
      if (c =? "'")%char
      then match r with
           | String d r' => (d =? "'")%char && sql_escaped r'
           | EmptyString => false
           end
      else sql_escaped r
  end.

Definition wf_escaped_literal (l : literal) : bool :=
  match l with
  | Quoted body => sql_escaped body
  | Bare _ => wf_literal l
  end.

Definition wf_escaped_value (v : value) : bool :=
  all_spaces (pad_left v) && wf_escaped_literal (lit v)
  && all_spaces (pad_right v).

Fixpoint all_hex (s : string) : bool :=
  match s with
  | EmptyString => true
  | String c r => is_hex c && all_hex r
  end.

(** The values of the groups of two hex digits from the left, a last
    digit standing alone when the length is odd. *)
Fixpoint hex_values (s : string) : option (list Z) :=
  match s with
  | EmptyString => Some []
  | String a EmptyString =>
      match PyNum.hex_digit a with
      | Some x => Some [x]
      | None => None
      end
  | String a (String b r) =>
      match PyNum.hex_digit a, PyNum.hex_digit b, hex_values r with
      | Some x, Some y, Some l => Some ((16 * x + y)%Z :: l)
      | _, _, _ => None
      end
  end.

(** The characters of a dotted list of integers. *)
Definition dotted_char (c : ascii) : bool :=
  PyNum.is_digit c || (c =? "-")%char || (c =? ".")%char.

Fixpoint all_dotted (s : string) : bool :=
  match s with
  | EmptyString => true
  | String c r => dotted_char c && all_dotted r
  end.

End Spec.

(** ** The output of the loop *)

Module Program.

Definition csv_row (u : user) : list string :=
  [username u; email u; created_date u; created_time u; last_ip u;
   password_hash u].

(** The rows written by the loop, in order. *)
Fixpoint csv_rows (out : list event) : list (list string) :=
  match out with
  | [] => []
  | CsvRow u :: rest => csv_row u :: csv_rows rest
  | _ :: rest => csv_rows rest
  end.

Definition is_user_event (e : event) : bool :=
  match e with
  | CsvRow _ | ConsoleUser _ => true
  | Progress _ _ => false
  end.

Definition is_progress (e : event) : bool :=
  match e with
  | Progress _ _ => true
  | _ => false
  end.

(** What the output holds, against the counters. *)
Definition output_counted (csv : bool) (st : loop_state) : Prop :=
  List.length (filter is_user_event (output st)) = valid_users st /\
  List.length (csv_rows (output st))
  = (if csv then valid_users st else 0) /\
  List.length (filter is_progress (output st))
  = (if csv then 0 else processed st / 500) /\
  Forall (fun row => List.length row = 6) (csv_rows (output st)).

End Program.

(** * Properties *)

(** ** The model on examples *)

Example parse_simple :
  parse_values_line "INSERT INTO mybb_users VALUES (1,'alice', NULL , 'a,b' );
" = Some ["1"; "alice"; "NULL"; "a,b"].
Proof. reflexivity. Qed.


Example parse_no_values : parse_values_line "CREATE TABLE t (a int);" = None.
Proof. reflexivity. Qed.


Example parse_greedy :
  parse_values_line "values(1) VALUES (2)" = Some ["1) VALUES (2"].
Proof. reflexivity. Qed.


Example parse_lone_quote : parse_values_line "VALUES(')" = Some [""].
Proof. reflexivity. Qed.


Example int16_samples :
  map PyNum.int16 ["7F"; "f"; " f"; "+f"; "-f"; "0x"; "ZZ"; "_f"; "f_"; ""]
  = [Some 127; Some 15; Some 15; Some 15; Some (-15); None; None; None; None;
     None]%Z.
Proof. reflexivity. Qed.


Example float_syntax_samples :
  map PyNum.float_syntax
    ["1700000000"; "1.5e3"; " 1_0 "; "inf"; "-Infinity"; "nan"; "1e"; ".";
     "0x10"; "not_a_number"; ""; "1_e5"; ".5"; "1."]
  = [Some PyNum.FNum; Some PyNum.FNum; Some PyNum.FNum; Some PyNum.FInf;
     Some PyNum.FInf; Some PyNum.FNan; None; None; None; None; None; None;
     Some PyNum.FNum; Some PyNum.FNum].
Proof. reflexivity. Qed.


Example str_of_int_samples :
  map Py.str_of_int [0; 10; 255; -15]%Z = ["0"; "10"; "255"; "-15"].
Proof. reflexivity. Qed.

Example demo_localtime :
  map (fun ts => dt <- Demo.localtime ts ;;
                 d <- Demo.strftime "%Y-%m-%d" dt ;;
                 t <- Demo.strftime "%H:%M:%S" dt ;; Ok (d, t))
      [0; 951782400; 1700000000; 253402300799; -1; -62135596801;
       67767976233532800; 67768036191676800; 2 ^ 63]%Z
  = [Ok ("1970-01-01", "00:00:00"); Ok ("2000-02-29", "00:00:00");
     Ok ("2023-11-14", "22:13:20"); Ok ("9999-12-31", "23:59:59");
     Ok ("1969-12-31", "23:59:59"); Ok ("0-12-31", "23:59:59");
     Raise OverflowError; Raise OSError; Raise OverflowError].
Proof. reflexivity. Qed.

Example demo_strtod_trunc :
  map Demo.strtod_trunc
    ["1700000000"; "1700000000.5"; "-1"; "-0.9"; " +12e2 "; "1_0.5";
     "9007199254740993"; "4.9e-324"; "1e22"; "1e23"]
  = [Some 1700000000; Some 1700000000; Some (-1); Some 0; Some 1200;
     Some 10; Some 9007199254740992; Some 0;
     Some 10000000000000000000000; Some 99999999999999991611392]%Z.
Proof. reflexivity. Qed.

Example demo_strtod_overflow :
  map Demo.strtod_trunc
    ["1.7976931348623157e308"; "1.7976931348623158e308";
     "1.797693134862315808e308"; "1e999"]
  = [Some (2 ^ 1024 - 2 ^ 971)%Z; Some (2 ^ 1024 - 2 ^ 971)%Z; None; None].
Proof. vm_compute. reflexivity. Qed.

(** The scenario of the specification, end to end. *)
Example end_to_end :
  (fields <- match parse_values_line
                 (Demo.insert_line
                    (Demo.row "'alice'" "'hash123'" "'alice@example.com'"
                       "1700000000" "'0x0A000001'"))
             with
             | Some fields => Ok fields
             | None => Raise ValueError
             end ;;
   Demo.process_user fields)
  = Ok (Some (mk_user "alice" "alice@example.com" "2023-11-14" "22:13:20"
                "10.0.0.1" "hash123"), None).
Proof. reflexivity. Qed.

(** A timestamp that [float] reads as an infinity is not caught. *)
Example infinite_timestamp_raises :
  Demo.process_user
    (Demo.row "alice" "hash123" "alice@example.com" "inf" "0x0A000001")
  = Raise OverflowError.
Proof. reflexivity. Qed.

Example main_loop_demo :
  let st := fst (Demo.main_loop true initial
    ["";
     "-- a comment with an @ sign";
     "INSERT INTO t VALUES (1,'bob@example.com');";
     Demo.insert_line
       (Demo.row "'alice'" "'hash123'" "'alice@example.com'" "x" "127.0.0.1")
       ++ String "010" ""]) in
  (processed st, valid_users st, List.length (output st)) = (1, 1, 1).
Proof. reflexivity. Qed.

(** ** Strings *)

Lemma append_nil_r (s : string) : s ++ "" = s.
Proof. induction s; simpl; congruence. Qed.

Lemma append_assoc (a b c : string) : (a ++ b) ++ c = a ++ b ++ c.
Proof. induction a; simpl; congruence. Qed.

Lemma append_length (a b : string) : length (a ++ b) = length a + length b.
Proof. induction a as [|c r IH]; cbn; [|rewrite IH]; reflexivity. Qed.

Ltac ascii_cases c :=
  let b0 := fresh in let b1 := fresh in let b2 := fresh in
  let b3 := fresh in let b4 := fresh in let b5 := fresh in
  let b6 := fresh in let b7 := fresh in
  destruct c as [b0 b1 b2 b3 b4 b5 b6 b7];
  destruct b0, b1, b2, b3, b4, b5, b6, b7.

Lemma isspace_not_paren c : Py.isspace c = true -> (c =? "(")%char = false.
Proof. ascii_cases c; simpl; intro; try reflexivity; discriminate. Qed.

(** ** The regular expression against the clause in words *)

Module RegexFacts.
Import Regex Spec.

Lemma at_end_spaces s : at_end s = true -> all_spaces s = true.
Proof.
  destruct s as [|c [|d r]]; simpl; trivial; try discriminate.
  intro H. apply Ascii.eqb_eq in H. subst c. reflexivity.
Qed.

Lemma spaces_end_iff s : spaces_end s = true <-> all_spaces s = true.
Proof.
  induction s as [|c r IH]; simpl.
  - tauto.
  - split; intro H.
    + apply orb_true_iff in H. destruct H as [H|H].
      * apply andb_true_iff in H. destruct H as [Hc Hr].
        rewrite Hc. apply IH, Hr.
      * apply (at_end_spaces (String c r)) in H. exact H.
    + apply andb_true_iff in H. destruct H as [Hc Hr].
      apply IH in Hr. rewrite Hc, Hr. reflexivity.
Qed.

Lemma semi_spaces_end_iff s :
  semi_spaces_end s = true <->
  exists semi trail,
    s = semi ++ trail /\ (semi = "" \/ semi = ";") /\ all_spaces trail = true.
Proof.
  split.
  - intro H. destruct s as [|c r].
    + exists "", "". simpl. auto.
    + unfold semi_spaces_end in H. apply orb_true_iff in H.
      destruct H as [H|H].
      * apply andb_true_iff in H. destruct H as [Hc Hr].
        apply Ascii.eqb_eq in Hc. subst c.
        exists ";", r. repeat split; auto. apply spaces_end_iff, Hr.
      * exists "", (String c r). repeat split; auto.
        apply spaces_end_iff, H.
  - intros (semi & trail & -> & [-> | ->] & Ht).
    + simpl. apply spaces_end_iff in Ht.
      destruct trail; simpl in *; trivial.
      rewrite Ht. apply orb_true_r.
    + simpl. apply spaces_end_iff in Ht. rewrite Ht. reflexivity.
Qed.

Lemma group_tail_sound s g :
  group_tail s = Some g ->
  exists rest, s = g ++ ")" ++ rest /\ semi_spaces_end rest = true.
Proof.
  revert g. induction s as [|c r IH]; simpl; intros g H; [discriminate|].
  destruct (group_tail r) as [g'|] eqn:E.
  - injection H as <-. destruct (IH g' eq_refl) as (rest & -> & Hr).
    exists rest. auto.
  - destruct (c =? ")")%char eqn:Ec; [|discriminate].
    destruct (semi_spaces_end r) eqn:Er; [|discriminate].
    injection H as <-. apply Ascii.eqb_eq in Ec. subst c.
    exists r. auto.
Qed.

Lemma group_tail_complete inner rest :
  semi_spaces_end rest = true ->
  exists g, group_tail (inner ++ ")" ++ rest) = Some g.
Proof.
  intro Hr. induction inner as [|c r IH]; simpl in *.
  - destruct (group_tail rest); eauto. rewrite Hr. eauto.
  - destruct IH as (g & ->). eauto.
Qed.

Lemma spaces_open_sound s g :
  spaces_open s = Some g ->
  exists gap rest,
    s = gap ++ "(" ++ rest /\ all_spaces gap = true /\
    group_tail rest = Some g.
Proof.
  induction s as [|c r IH]; simpl; intro H; [discriminate|].
  destruct (Py.isspace c) eqn:Ec.
  - destruct (spaces_open r) as [g'|] eqn:E.
    + injection H as <-. destruct (IH eq_refl) as (gap & rest & -> & Hg & Hr).
      exists (String c gap), rest. simpl. rewrite Ec. auto.
    + rewrite (isspace_not_paren c Ec) in H. discriminate.
  - destruct (c =? "(")%char eqn:Ep; [|discriminate].
    apply Ascii.eqb_eq in Ep. subst c. exists "", r. auto.
Qed.

Lemma spaces_open_complete gap rest g :
  all_spaces gap = true -> group_tail rest = Some g ->
  spaces_open (gap ++ "(" ++ rest) = Some g.
Proof.
  intros Hg Hr. induction gap as [|c r IH]; simpl in *.
  - exact Hr.
  - apply andb_true_iff in Hg. destruct Hg as [Hc Hg].
    rewrite Hc, (IH Hg). reflexivity.
Qed.

Lemma keyword_iff kw s r :
  keyword kw s = Some r <->
  exists k, s = k ++ r /\ Py.lower k = Py.lower kw.
Proof.
  revert s. induction kw as [|a kw IH]; intro s; simpl.
  - split.
    + intro H. injection H as <-. exists "". auto.
    + intros (k & -> & Hk). destruct k; [reflexivity | discriminate].
  - destruct s as [|c s].
    + split; [discriminate|]. intros (k & Hs & Hk).
      destruct k; simpl in *; discriminate.
    + unfold ci_eq. split.
      * intro H. destruct (Py.char_lower c =? Py.char_lower a)%char eqn:E;
          [|discriminate].
        apply Ascii.eqb_eq in E. apply IH in H. destruct H as (k & -> & Hk).
        exists (String c k). simpl. rewrite E, Hk. auto.
      * intros (k & Hs & Hk). destruct k as [|d k]; [discriminate|].
        simpl in Hs, Hk. injection Hs as <- ->. injection Hk as Hd Hk.
        rewrite Hd, Ascii.eqb_refl. apply IH. eauto.
Qed.

Lemma search_eq s :
  search s =
  match match_here s with
  | Some g => Some g
  | None => match s with String _ r => search r | EmptyString => None end
  end.
Proof. destruct s; reflexivity. Qed.

Lemma search_sound s g :
  search s = Some g ->
  exists before rest, s = before ++ rest /\ match_here rest = Some g.
Proof.
  induction s as [|c r IH]; rewrite search_eq; intro H.
  - discriminate.
  - destruct (match_here (String c r)) as [g'|] eqn:E.
    + injection H as <-. exists "", (String c r). auto.
    + destruct (IH H) as (before & rest & -> & Hm).
      exists (String c before), rest. auto.
Qed.

Lemma search_complete before rest g :
  match_here rest = Some g -> exists g', search (before ++ rest) = Some g'.
Proof.
  intro Hm. induction before as [|c r IH].
  - simpl. rewrite search_eq, Hm. eauto.
  - rewrite search_eq.
    destruct (match_here (String c r ++ rest)); eauto.
Qed.

(** The pattern is found in a line exactly when the line contains the
    clause. *)
Lemma search_iff_clause line :
  (exists g, search line = Some g) <-> has_values_clause line.
Proof.
  split.
  - intros (g & H). apply search_sound in H.
    destruct H as (before & rest & -> & Hm). unfold match_here in Hm.
    destruct (keyword "VALUES" rest) as [r|] eqn:Ek; [|discriminate].
    apply keyword_iff in Ek. destruct Ek as (kw & -> & Hkw).
    apply spaces_open_sound in Hm.
    destruct Hm as (gap & rest' & -> & Hgap & Hg).
    apply group_tail_sound in Hg. destruct Hg as (tl & -> & Htl).
    apply semi_spaces_end_iff in Htl.
    destruct Htl as (semi & trail & -> & Hsemi & Htrail).
    exists before, kw, gap, g, semi, trail. auto.
  - intros (before & kw & gap & inner & semi & trail & -> & Hkw & Hgap
            & Hsemi & Htrail).
    assert (Htl : semi_spaces_end (semi ++ trail) = true)
      by (apply semi_spaces_end_iff; eauto).
    destruct (group_tail_complete inner _ Htl) as (g & Hg).
    apply (search_complete before _ g). unfold match_here.
    assert (Hk : keyword "VALUES"
                   (kw ++ gap ++ "(" ++ inner ++ ")" ++ semi ++ trail)
                 = Some (gap ++ "(" ++ inner ++ ")" ++ semi ++ trail))
      by (apply keyword_iff; eauto).
    rewrite Hk. apply spaces_open_complete; assumption.
Qed.

End RegexFacts.

(** ** The scanning loop against the pieces between unquoted commas *)

Module ScanFacts.
Import Spec.

Lemma segments_cons q s : exists seg rest, segments q s = seg :: rest.
Proof.
  revert q. induction s as [|c r IH]; intro q; simpl; eauto.
  destruct (c =? "'")%char.
  - destruct (IH (negb q)) as (seg & rest & ->). eauto.
  - destruct ((c =? ",")%char && negb q); eauto.
    destruct (IH q) as (seg & rest & ->). eauto.
Qed.

Lemma segments_length q s :
  List.length (segments q s) = S (unquoted_commas q s).
Proof.
  revert q. induction s as [|c r IH]; intro q; simpl; trivial.
  destruct (c =? "'")%char.
  - specialize (IH (negb q)).
    destruct (segments_cons (negb q) r) as (seg & rest & E).
    rewrite E in *. exact IH.
  - destruct ((c =? ",")%char && negb q); simpl.
    + now rewrite IH.
    + specialize (IH q). destruct (segments_cons q r) as (seg & rest & E).
      rewrite E in *. exact IH.
Qed.

(** The loop, started in any state: the first piece is added to
    [current], every unquoted comma closes a piece, and the last piece is
    left in [current]. *)
Lemma scan_segments s : forall st,
  match segments (in_quote st) s with
  | seg :: rest =>
      let pieces := (current st ++ seg) :: rest in
      fields (scan st s) = (fields st ++ map Py.strip (removelast pieces))%list
      /\ current (scan st s) = last pieces ""
  | [] => False
  end.
Proof.
  induction s as [|c r IH]; intro st.
  - simpl. rewrite append_nil_r, app_nil_r. auto.
  - cbn [scan segments]. specialize (IH (scan_char st c)).
    unfold scan_char in *. destruct (c =? "'")%char eqn:Eq.
    + assert (Ec : (c =? ",")%char = false).
      { apply Ascii.eqb_eq in Eq. subst c. reflexivity. }
      rewrite Ec in *. cbn [andb in_quote current fields] in IH.
      destruct (segments (negb (in_quote st)) r) as [|seg rest];
        [contradiction|].
      rewrite append_assoc in IH. exact IH.
    + destruct ((c =? ",")%char && negb (in_quote st)) eqn:Ec;
        cbn [in_quote current fields] in IH.
      * destruct (segments (in_quote st) r) as [|seg rest];
          [contradiction|].
        destruct IH as [IHf IHc]. cbn [append] in IHf, IHc.
        rewrite append_nil_r. split.
        -- rewrite IHf, <- app_assoc. reflexivity.
        -- exact IHc.
      * destruct (segments (in_quote st) r) as [|seg rest];
          [contradiction|].
        rewrite append_assoc in IH. exact IH.
Qed.

Lemma removelast_last (l : list string) :
  l <> [] -> (removelast l ++ [last l ""])%list = l.
Proof. intro H. symmetry. apply app_removelast_last, H. Qed.

(** The fields of a captured text, in terms of its pieces. *)
Lemma split_fields_segments s :
  split_fields s =
  map unwrap (map Py.strip
    (if Py.truthy (trailing_text s) then segments false s
     else removelast (segments false s))).
Proof.
  unfold split_fields, flush, trailing_text.
  pose proof (scan_segments s (mk_scan [] "" false)) as H.
  cbn [in_quote current fields] in H.
  destruct (segments false s) as [|seg rest] eqn:E; [contradiction|].
  cbn [append app] in H. destruct H as [Hf Hc]. rewrite Hf, Hc.
  destruct (Py.truthy (last (seg :: rest) "")); trivial.
  rewrite <- (removelast_last (seg :: rest)) at 3 by discriminate.
  rewrite !map_app. reflexivity.
Qed.

End ScanFacts.

(** ** Well-formed tuples *)

Module TupleFacts.
Import Spec ScanFacts.

Lemma segments_app q x y :
  unquoted_commas q x = 0 ->
  segments q (x ++ y) =
  match segments (end_quote q x) y with
  | seg :: rest => (x ++ seg) :: rest
  | [] => [x]
  end.
Proof.
  revert q. induction x as [|c r IH]; intros q H; simpl in *.
  - destruct (segments_cons q y) as (seg & rest & ->). reflexivity.
  - destruct (c =? "'")%char.
    + rewrite (IH _ H).
      destruct (segments_cons (end_quote (negb q) r) y) as (seg & rest & ->).
      reflexivity.
    + destruct ((c =? ",")%char && negb q); [discriminate|].
      rewrite (IH _ H).
      destruct (segments_cons (end_quote q r) y) as (seg & rest & ->).
      reflexivity.
Qed.

Lemma unquoted_commas_app q x y :
  unquoted_commas q (x ++ y) =
  unquoted_commas q x + unquoted_commas (end_quote q x) y.
Proof.
  revert q. induction x as [|c r IH]; intro q; simpl; trivial.
  destruct (c =? "'")%char; [apply IH|].
  destruct ((c =? ",")%char && negb q); rewrite IH; reflexivity.
Qed.

Lemma end_quote_app q x y :
  end_quote q (x ++ y) = end_quote (end_quote q x) y.
Proof. revert q. induction x as [|c r IH]; intro q; simpl; trivial. Qed.

Lemma no_quote_end q x : Py.contains "'" x = false -> end_quote q x = q.
Proof.
  induction x as [|c r IH]; simpl; trivial. intro H.
  apply orb_false_iff in H. destruct H as [Hc Hr]. rewrite Hc. auto.
Qed.

Lemma no_quote_commas x :
  Py.contains "'" x = false -> unquoted_commas true x = 0.
Proof.
  induction x as [|c r IH]; simpl; trivial. intro H.
  apply orb_false_iff in H. destruct H as [Hc Hr]. rewrite Hc.
  rewrite andb_false_r. auto.
Qed.

Lemma no_comma_commas q x :
  Py.contains "'" x = false -> Py.contains "," x = false ->
  unquoted_commas q x = 0.
Proof.
  induction x as [|c r IH]; simpl; trivial. intros H1 H2.
  apply orb_false_iff in H1. destruct H1 as [Hc1 Hr1].
  apply orb_false_iff in H2. destruct H2 as [Hc2 Hr2].
  rewrite Hc1, Hc2. auto.
Qed.

Lemma isspace_plain c :
  Py.isspace c = true -> (c =? "'")%char = false /\ (c =? ",")%char = false.
Proof. ascii_cases c; simpl; intro; try discriminate; auto. Qed.

Lemma spaces_plain x :
  all_spaces x = true ->
  Py.contains "'" x = false /\ Py.contains "," x = false.
Proof.
  induction x as [|c r IH]; simpl; auto. intro H.
  apply andb_true_iff in H. destruct H as [Hc Hr].
  destruct (isspace_plain c Hc) as [-> ->]. auto.
Qed.

(** A rendered literal scans as one piece. *)
Lemma literal_closed l :
  wf_literal l = true ->
  unquoted_commas false (render_literal l) = 0 /\
  end_quote false (render_literal l) = false.
Proof.
  destruct l as [body|token]; simpl; intro H.
  - apply negb_true_iff in H.
    rewrite unquoted_commas_app, end_quote_app, (no_quote_end _ _ H).
    rewrite (no_quote_commas _ H). auto.
  - apply andb_true_iff in H. destruct H as [H _].
    apply andb_true_iff in H. destruct H as [H _].
    apply andb_true_iff in H. destruct H as [H1 H2].
    apply negb_true_iff in H1, H2.
    rewrite (no_comma_commas _ _ H1 H2), (no_quote_end _ _ H1). auto.
Qed.

Lemma value_closed v :
  wf_value v = true ->
  unquoted_commas false (render v) = 0 /\ end_quote false (render v) = false.
Proof.
  unfold wf_value, render. intro H.
  apply andb_true_iff in H. destruct H as [H Hr].
  apply andb_true_iff in H. destruct H as [Hl Hw].
  destruct (spaces_plain _ Hl) as [Hl1 Hl2].
  destruct (spaces_plain _ Hr) as [Hr1 Hr2].
  destruct (literal_closed _ Hw) as [Hc He].
  rewrite !unquoted_commas_app, !end_quote_app.
  rewrite (no_quote_end _ _ Hl1), He, (no_quote_end _ _ Hr1).
  rewrite (no_comma_commas _ _ Hl1 Hl2), Hc, (no_comma_commas _ _ Hr1 Hr2).
  auto.
Qed.

(** The pieces of a rendered tuple are its rendered values. *)
Lemma segments_render_tuple vs :
  vs <> [] -> forallb wf_value vs = true ->
  segments false (render_tuple vs) = map render vs.
Proof.
  induction vs as [|v vs IH]; [congruence|]. intros _ H.
  simpl in H. apply andb_true_iff in H. destruct H as [Hv Hvs].
  destruct (value_closed v Hv) as [Hc He].
  destruct vs as [|v' vs].
  - unfold render_tuple. simpl.
    rewrite <- (append_nil_r (render v)) at 1.
    rewrite (segments_app _ _ _ Hc). simpl. now rewrite append_nil_r.
  - change (render_tuple (v :: v' :: vs))
      with (render v ++ "," ++ render_tuple (v' :: vs)).
    rewrite (segments_app _ _ _ Hc), He. simpl append.
    cbn [segments]. simpl. rewrite append_nil_r.
    f_equal. apply IH; [discriminate | exact Hvs].
Qed.

Lemma lstrip_spaces p x :
  all_spaces p = true -> Py.lstrip (p ++ x) = Py.lstrip x.
Proof.
  induction p as [|c r IH]; simpl; trivial. intro H.
  apply andb_true_iff in H. destruct H as [-> Hr]. auto.
Qed.

Lemma lstrip_id x : not_space (first_char x) = true -> Py.lstrip x = x.
Proof.
  destruct x as [|c r]; simpl; trivial. intro H.
  apply negb_true_iff in H. now rewrite H.
Qed.

Lemma rstrip_all_spaces p : all_spaces p = true -> Py.rstrip p = "".
Proof.
  induction p as [|c r IH]; simpl; trivial. intro H.
  apply andb_true_iff in H. destruct H as [-> Hr]. now rewrite IH.
Qed.

Lemma rstrip_spaces x p :
  all_spaces p = true -> Py.rstrip (x ++ p) = Py.rstrip x.
Proof.
  intro H. induction x as [|c r IH]; simpl.
  - apply rstrip_all_spaces, H.
  - now rewrite IH.
Qed.

Lemma rstrip_id x : not_space (last_char x) = true -> Py.rstrip x = x.
Proof.
  induction x as [|c r IH]; simpl; trivial. intro H.
  destruct r as [|d r'].
  - simpl in *. apply negb_true_iff in H. now rewrite H.
  - rewrite (IH H). reflexivity.
Qed.

Lemma last_char_app x c : last_char (x ++ String c "") = Some c.
Proof.
  induction x as [|d r IH]; simpl; trivial.
  destruct (r ++ String c "") eqn:E; [|exact IH].
  destruct r; discriminate.
Qed.

Lemma literal_ends l :
  wf_literal l = true ->
  not_space (first_char (render_literal l)) = true /\
  not_space (last_char (render_literal l)) = true.
Proof.
  destruct l as [body|token]; cbn [render_literal wf_literal]; intro H.
  - split; [reflexivity|].
    change ("'" ++ body ++ "'") with (String "'" body ++ "'").
    rewrite last_char_app. reflexivity.
  - apply andb_true_iff in H. destruct H as [H H2].
    apply andb_true_iff in H. destruct H as [_ H1]. auto.
Qed.

Lemma strip_render v :
  wf_value v = true -> Py.strip (render v) = render_literal (lit v).
Proof.
  unfold wf_value, render, Py.strip. intro H.
  apply andb_true_iff in H. destruct H as [H Hr].
  apply andb_true_iff in H. destruct H as [Hl Hw].
  destruct (literal_ends _ Hw) as [Hf Hz].
  rewrite (lstrip_spaces _ _ Hl).
  assert (Hf' : not_space (first_char (render_literal (lit v)
                                        ++ pad_right v)) = true).
  { destruct (render_literal (lit v)); [discriminate | exact Hf]. }
  rewrite (lstrip_id _ Hf'), (rstrip_spaces _ _ Hr). apply rstrip_id, Hz.
Qed.

Lemma substring_0_app b x : substring 0 (length b) (b ++ x) = b.
Proof.
  induction b as [|c r IH]; simpl.
  - destruct x; reflexivity.
  - now rewrite IH.
Qed.

Lemma substring_skip a m b :
  substring (length a) m (a ++ b) = substring 0 m b.
Proof. induction a as [|c r IH]; simpl; trivial. Qed.

Lemma endswith_quote x : Py.endswith "'" (x ++ "'") = true.
Proof.
  unfold Py.endswith. rewrite append_length. cbn [length].
  assert (H : (1 <=? length x + 1)%nat = true) by (apply Nat.leb_le; lia).
  rewrite H. replace (length x + 1 - 1) with (length x) by lia.
  rewrite substring_skip. reflexivity.
Qed.

Lemma startswith_quote r : Py.startswith "'" (String "'" r) = true.
Proof. unfold Py.startswith. simpl. destruct r; reflexivity. Qed.

Lemma slice_inner a b c : Py.slice (String a (b ++ String c "")) 1 (-1) = b.
Proof.
  unfold Py.slice, Py.clamp. cbn [length]. rewrite append_length.
  cbn [length].
  replace (Z.of_nat (S (length b + 1))) with (Z.of_nat (length b) + 2)%Z
    by lia.
  change (1 <? 0)%Z with false. change (-1 <? 0)%Z with true. cbv iota.
  replace (Z.min 1 (Z.of_nat (length b) + 2)) with 1%Z by lia.
  replace (Z.max 0 (-1 + (Z.of_nat (length b) + 2)))
    with (Z.of_nat (length b) + 1)%Z by lia.
  replace (Z.of_nat (length b) + 1 - 1)%Z with (Z.of_nat (length b)) by lia.
  rewrite Nat2Z.id. change (Z.to_nat 1) with 1.
  cbn [substring]. apply substring_0_app.
Qed.

(** One layer of quotes is removed. *)
Lemma unwrap_quoted body : unwrap ("'" ++ body ++ "'") = body.
Proof.
  unfold unwrap.
  change ("'" ++ body ++ "'") with (String "'" (body ++ "'")).
  rewrite startswith_quote.
  change (String "'" (body ++ "'")) with (String "'" body ++ "'") at 1.
  rewrite endswith_quote. cbn [andb]. apply slice_inner.
Qed.

Lemma unwrap_unquoted x : Py.contains "'" x = false -> unwrap x = x.
Proof.
  unfold unwrap, Py.startswith. intro H.
  destruct x as [|c r]; [reflexivity|].
  cbn [Py.contains] in H. apply orb_false_iff in H. destruct H as [Hc _].
  cbn [prefix]. destruct (ascii_dec "'" c) as [E|E].
  - subst c. discriminate.
  - reflexivity.
Qed.

Lemma unwrap_render_literal l :
  wf_literal l = true -> unwrap (render_literal l) = match l with
                                                      | Quoted b => b
                                                      | Bare t => t
                                                      end.
Proof.
  destruct l as [body|token]; simpl render_literal; intro H.
  - apply unwrap_quoted.
  - simpl in H. apply andb_true_iff in H. destruct H as [H _].
    apply andb_true_iff in H. destruct H as [H _].
    apply andb_true_iff in H. destruct H as [H _].
    apply negb_true_iff in H. apply unwrap_unquoted, H.
Qed.

Lemma field_of_value v :
  wf_value v = true -> unwrap (Py.strip (render v)) = payload v.
Proof.
  intro H. rewrite (strip_render v H). unfold payload.
  apply unwrap_render_literal. unfold wf_value in H.
  apply andb_true_iff in H. destruct H as [H _].
  apply andb_true_iff in H. apply H.
Qed.

Lemma render_not_empty v : wf_value v = true -> Py.truthy (render v) = true.
Proof.
  intro H. unfold wf_value in H.
  apply andb_true_iff in H. destruct H as [H _].
  apply andb_true_iff in H. destruct H as [_ Hw].
  destruct (literal_ends _ Hw) as [Hf _]. unfold render.
  destruct (pad_left v); simpl; trivial.
  destruct (render_literal (lit v)); simpl; [discriminate | trivial].
Qed.

Lemma last_render_not_empty v vs :
  forallb wf_value (v :: vs) = true ->
  Py.truthy (last (map render (v :: vs)) "") = true.
Proof.
  revert v. induction vs as [|v' vs IH]; intros v H.
  - simpl in H. rewrite andb_true_r in H. apply render_not_empty, H.
  - change (forallb wf_value (v :: v' :: vs))
      with (wf_value v && forallb wf_value (v' :: vs)) in H.
    apply andb_true_iff in H. destruct H as [_ H].
    change (last (map render (v :: v' :: vs)) "")
      with (last (map render (v' :: vs)) "").
    apply IH, H.
Qed.

(** The fields of a rendered tuple are the payloads of its values. *)
Lemma split_fields_render_tuple vs :
  vs <> [] -> forallb wf_value vs = true ->
  split_fields (render_tuple vs) = map payload vs.
Proof.
  intros Hne Hwf. rewrite split_fields_segments. unfold trailing_text.
  rewrite (segments_render_tuple vs Hne Hwf).
  assert (Hlast : Py.truthy (last (map render vs) "") = true).
  { destruct vs as [|v vs]; [congruence|].
    apply last_render_not_empty, Hwf. }
  rewrite Hlast. clear Hne Hlast. rewrite map_map.
  induction vs as [|v vs IH]; simpl; trivial.
  simpl in Hwf. apply andb_true_iff in Hwf. destruct Hwf as [Hv Hvs].
  rewrite (field_of_value v Hv), (IH Hvs). reflexivity.
Qed.

End TupleFacts.

(** ** The tokenizer *)

Lemma group_tail_exact inner : Regex.group_tail (inner ++ ");") = Some inner.
Proof.
  induction inner as [|c r IH]; [reflexivity|].
  cbn [append Regex.group_tail]. now rewrite IH.
Qed.

(** The captured text of a line of the usual shape. *)
Lemma search_insert_line inner :
  Regex.search ("INSERT INTO mybb_users VALUES (" ++ inner ++ ");")
  = Some inner.
Proof.
  cbn -[Regex.group_tail]. now rewrite group_tail_exact.
Qed.

Lemma removelast_length (l : list string) :
  List.length (removelast l) = pred (List.length l).
Proof.
  destruct l as [|x l]; [reflexivity|].
  rewrite (app_removelast_last "" (l := x :: l)) at 2 by discriminate.
  rewrite length_app. simpl. lia.
Qed.

(** C1. For every well-formed tuple, that is every line whose captured
    text is a comma-separated list of values, each a quoted string
    (without a quote inside, with any commas) or a bare token, the
    tokenizer returns one field per value: as many fields as there are
    commas in unquoted context plus one, and the field of a quoted value
    is its body verbatim, commas included. *)
Theorem quoted_commas_stay_in_field (line : string) (vs : list Spec.value) :
  vs <> [] ->
  forallb Spec.wf_value vs = true ->
  Regex.search line = Some (Spec.render_tuple vs) ->
  parse_values_line line = Some (map Spec.payload vs) /\
  List.length (map Spec.payload vs)
  = Spec.unquoted_commas false (Spec.render_tuple vs) + 1.
Proof.
  intros Hne Hwf Hs. unfold parse_values_line. rewrite Hs.
  rewrite (TupleFacts.split_fields_render_tuple vs Hne Hwf).
  split; [reflexivity|].
  rewrite length_map, <- (length_map Spec.render vs).
  rewrite <- (TupleFacts.segments_render_tuple vs Hne Hwf).
  rewrite ScanFacts.segments_length. lia.
Qed.

Lemma quoted_commas_stay_in_field_witness :
  parse_values_line
    "INSERT INTO mybb_users VALUES (1, 'Doe, John' ,NULL,'a,b,c');"
  = Some ["1"; "Doe, John"; "NULL"; "a,b,c"] /\
  4 = 3 + 1.
Proof.
  apply (quoted_commas_stay_in_field
           "INSERT INTO mybb_users VALUES (1, 'Doe, John' ,NULL,'a,b,c');"
           [Spec.mk_value "" (Spec.Bare "1") "";
            Spec.mk_value " " (Spec.Quoted "Doe, John") " ";
            Spec.mk_value "" (Spec.Bare "NULL") "";
            Spec.mk_value "" (Spec.Quoted "a,b,c") ""]).
  - discriminate.
  - reflexivity.
  - reflexivity.
Defined.

(** C4, as stated, fails: when nothing follows the last unquoted comma,
    no trailing field is produced.  Here the captured text is "1,'alice',"
    and the two fields returned are those before the commas. *)
Lemma trailing_empty_not_flushed :
  let line := "INSERT INTO mybb_users VALUES (1,'alice',);" in
  Regex.search line = Some "1,'alice'," /\
  Spec.trailing_text "1,'alice'," = "" /\
  parse_values_line line = Some ["1"; "alice"] /\
  ~ (exists init,
       parse_values_line line
       = Some (init ++ [unwrap (Py.strip (Spec.trailing_text "1,'alice',"))])
         %list).
Proof.
  repeat split. intros (init & H). vm_compute in H.
  injection H as H. destruct init as [|a [|b [|c init]]]; discriminate.
Qed.

(** C4, amended. For every line matched by the tokenizer, the fields
    closed by the unquoted commas come first, one per comma; the text
    after the last unquoted comma, trimmed and unwrapped, is produced as
    the final element exactly when that text, before trimming, is not
    empty.  When it is empty no trailing field is produced. *)
Theorem trailing_field_flushed (line values_str : string) :
  Regex.search line = Some values_str ->
  exists init,
    List.length init = Spec.unquoted_commas false values_str /\
    parse_values_line line
    = Some (if Py.truthy (Spec.trailing_text values_str)
            then (init ++ [unwrap (Py.strip (Spec.trailing_text values_str))])
                   %list
            else init).
Proof.
  intro Hs. unfold parse_values_line. rewrite Hs.
  rewrite ScanFacts.split_fields_segments.
  exists (map unwrap (map Py.strip (removelast (Spec.segments false values_str)))).
  split.
  - rewrite !length_map, removelast_length, ScanFacts.segments_length.
    reflexivity.
  - destruct (Py.truthy (Spec.trailing_text values_str)); [|reflexivity].
    unfold Spec.trailing_text.
    destruct (ScanFacts.segments_cons false values_str) as (seg & rest & E).
    rewrite E.
    rewrite <- (ScanFacts.removelast_last (seg :: rest)) at 1 by discriminate.
    rewrite !map_app. reflexivity.
Qed.

Lemma trailing_field_flushed_witness :
  exists init,
    List.length init = 2 /\
    parse_values_line "insert into t values (1, 'x,y', NULL );"
    = Some (init ++ ["NULL"])%list.
Proof.
  exact (trailing_field_flushed "insert into t values (1, 'x,y', NULL );"
           "1, 'x,y', NULL " eq_refl).
Defined.

(** C8. A tuple whose single field is the quoted text 'hello, world' is
    tokenized into the one string hello, world: one layer of quotes is
    removed from each end and the comma inside is kept. *)
Theorem hello_world_round_trip (line : string) :
  Regex.search line = Some "'hello, world'" ->
  parse_values_line line = Some ["hello, world"].
Proof.
  intro Hs. unfold parse_values_line. rewrite Hs. reflexivity.
Qed.

Lemma hello_world_round_trip_witness :
  parse_values_line "INSERT INTO mybb_users VALUES ('hello, world');"
  = Some ["hello, world"].
Proof.
  exact (hello_world_round_trip
           "INSERT INTO mybb_users VALUES ('hello, world');" eq_refl).
Defined.

(** C9. The tokenizer is a total function: for every line it returns a
    field sequence or nothing, and it returns nothing exactly for the lines
    that do not contain the clause, that is the keyword VALUES in any case,
    whitespace, a parenthesised text, an optional semicolon and whitespace
    up to the end of the line. *)
Theorem tokenizer_total_absent_without_clause (line : string) :
  (parse_values_line line = None \/
   exists fields, parse_values_line line = Some fields) /\
  (parse_values_line line = None <-> ~ Spec.has_values_clause line).
Proof.
  split.
  - destruct (parse_values_line line); eauto.
  - unfold parse_values_line. split.
    + intros H Hc. apply RegexFacts.search_iff_clause in Hc.
      destruct Hc as (g & Hg). rewrite Hg in H. discriminate.
    + intro H. destruct (Regex.search line) as [g|] eqn:E; [|reflexivity].
      exfalso. apply H, RegexFacts.search_iff_clause. eauto.
Qed.

(** ** The conversion of the address *)

Module IpFacts.
Import Spec.

Lemma string_pair_ind (P : string -> Prop) :
  P "" -> (forall a, P (String a "")) ->
  (forall a b r, P r -> P (String a (String b r))) ->
  forall s, P s.
Proof.
  intros H0 H1 H2.
  assert (H : forall s, P s /\ forall a, P (String a s)).
  { induction s as [|c r [IHr IHc]]; split; auto. }
  intro s. apply H.
Qed.

Lemma substring_0_0 s : substring 0 0 s = "".
Proof. destruct s; reflexivity. Qed.

(** The slice that starts after a prefix [p] and is two characters wide. *)
Lemma slice_after p s :
  Py.slice (p ++ s) (Z.of_nat (length p)) (Z.of_nat (length p) + 2)
  = substring 0 2 s.
Proof.
  unfold Py.slice, Py.clamp. rewrite append_length.
  destruct (Z.ltb_spec (Z.of_nat (length p)) 0); [lia|].
  destruct (Z.ltb_spec (Z.of_nat (length p) + 2) 0); [lia|].
  replace (Z.min (Z.of_nat (length p)) (Z.of_nat (length p + length s)))
    with (Z.of_nat (length p)) by lia.
  rewrite Nat2Z.id, TupleFacts.substring_skip.
  destruct s as [|a [|b r]]; cbn [length].
  - replace (Z.to_nat _) with 0 by lia. reflexivity.
  - replace (Z.to_nat _) with 1 by lia. reflexivity.
  - replace (Z.to_nat _) with 2 by lia. reflexivity.
Qed.

Lemma range_groups s : forall fuel p,
  length s <= fuel ->
  map (fun i => Py.slice (p ++ s) (Z.of_nat i) (Z.of_nat i + 2))
      (Py.range_from fuel (length p) (length p + length s) 2)
  = groups_of_two s.
Proof.
  induction s as [|a|a b r IH] using string_pair_ind; intros fuel p Hf.
  - cbn [length]. destruct fuel; [reflexivity|]. cbn [Py.range_from].
    replace (length p <? length p + 0)%nat with false
      by (symmetry; apply Nat.ltb_ge; lia).
    reflexivity.
  - cbn [length] in *. destruct fuel as [|fuel]; [lia|].
    cbn [Py.range_from].
    replace (length p <? length p + 1)%nat with true
      by (symmetry; apply Nat.ltb_lt; lia).
    cbn [map]. rewrite slice_after.
    destruct fuel; [reflexivity|]. cbn [Py.range_from].
    replace (length p + 2 <? length p + 1)%nat with false
      by (symmetry; apply Nat.ltb_ge; lia).
    reflexivity.
  - cbn [length] in *. destruct fuel as [|fuel]; [lia|].
    cbn [Py.range_from].
    replace (length p <? length p + S (S (length r)))%nat with true
      by (symmetry; apply Nat.ltb_lt; lia).
    cbn [map groups_of_two]. rewrite slice_after. cbn [substring].
    rewrite substring_0_0. f_equal.
    specialize (IH fuel (p ++ String a (String b "")) ltac:(lia)).
    rewrite append_assoc, append_length in IH. cbn [append length] in IH.
    replace (length p + 2 + length r) with (length p + S (S (length r)))
      in IH by lia.
    exact IH.
Qed.

(** The groups cut by the comprehension are the groups of two from the
    left. *)
Lemma hex_groups_of_two s : hex_groups s = groups_of_two s.
Proof.
  unfold hex_groups, Py.range.
  exact (range_groups s (length s) "" (le_n _)).
Qed.

Lemma all_ascii_complete a : In a all_ascii.
Proof.
  unfold all_ascii. rewrite <- (ascii_nat_embedding a).
  apply in_map, in_seq. pose proof (nat_ascii_bounded a). lia.
Qed.



Lemma hex_pair_table :
  forallb (fun a => forallb (fun b =>
    match PyNum.hex_digit a, PyNum.hex_digit b with
    | Some x, Some y =>
        match PyNum.int16 (String a (String b "")) with
        | Some v => (v =? 16 * x + y)%Z && (0 <=? v)%Z && (v <=? 255)%Z
        | None => false
        end
    | _, _ => true
    end) all_ascii) all_ascii = true.
Proof. vm_compute. reflexivity. Qed.

(** Two hex digits are read by [int] as the number they spell. *)
Lemma int16_hex_pair a b x y :
  PyNum.hex_digit a = Some x -> PyNum.hex_digit b = Some y ->
  PyNum.int16 (String a (String b "")) = Some (16 * x + y)%Z /\
  (0 <= 16 * x + y <= 255)%Z.
Proof.
  intros Ha Hb. pose proof hex_pair_table as T.
  rewrite forallb_forall in T. specialize (T a (all_ascii_complete a)).
  rewrite forallb_forall in T. specialize (T b (all_ascii_complete b)).
  rewrite Ha, Hb in T.
  destruct (PyNum.int16 (String a (String b ""))) as [v|]; [|discriminate].
  apply andb_true_iff in T. destruct T as [T T3].
  apply andb_true_iff in T. destruct T as [T1 T2].
  apply Z.eqb_eq in T1. apply Z.leb_le in T2, T3. subst v. split; [|lia].
  reflexivity.
Qed.

Lemma group_values_pairs s : forall vs,
  hex_pairs s = Some vs ->
  group_values (groups_of_two s) = Ok vs /\
  Forall (fun v => 0 <= v <= 255)%Z vs.
Proof.
  induction s as [|a|a b r IH] using string_pair_ind; intros vs H.
  - injection H as <-. split; [reflexivity | constructor].
  - discriminate.
  - cbn [hex_pairs] in H.
    destruct (PyNum.hex_digit a) as [x|] eqn:Ha; [|discriminate].
    destruct (PyNum.hex_digit b) as [y|] eqn:Hb; [|discriminate].
    destruct (hex_pairs r) as [l|] eqn:Hr; [|discriminate].
    injection H as <-. destruct (IH l eq_refl) as [IHv IHb].
    destruct (int16_hex_pair a b x y Ha Hb) as [Hi Hrange].
    cbn [groups_of_two group_values]. rewrite Hi, IHv. split.
    + reflexivity.
    + constructor; assumption.
Qed.


Lemma group_values_raises gs e :
  group_values gs = Raise e -> e = ValueError.
Proof.
  induction gs as [|g gs IH]; cbn [group_values]; [discriminate|].
  destruct (PyNum.int16 g); [|congruence].
  destruct (group_values gs); cbn [bind]; [discriminate|].
  intro H. injection H as <-. now apply IH.
Qed.

(** The conversion never raises. *)
Lemma convert_ip_total lastip : exists ip_final, convert_ip lastip = Ok ip_final.
Proof.
  unfold convert_ip. destruct (Py.startswith "0x" (Py.lower lastip)); eauto.
  destruct (group_values (hex_groups (Py.slice_from lastip 2))) as [vs|e] eqn:E;
    cbn [bind try_except]; eauto.
  rewrite (group_values_raises _ _ E). cbn. eauto.
Qed.

Lemma convert_ip_plain lastip :
  Py.startswith "0x" (Py.lower lastip) = false -> convert_ip lastip = Ok lastip.
Proof. unfold convert_ip. now intros ->. Qed.

Lemma convert_ip_hex lastip vs :
  Py.startswith "0x" (Py.lower lastip) = true ->
  hex_pairs (Py.slice_from lastip 2) = Some vs ->
  convert_ip lastip = Ok (dotted vs).
Proof.
  unfold convert_ip. intros -> H. rewrite hex_groups_of_two.
  destruct (group_values_pairs _ _ H) as [-> _]. reflexivity.
Qed.


End IpFacts.

(** ** The normalizer *)

Section NormalizerFacts.

Variable P : platform.


Lemma index_ok (l : list string) (i : nat) :
  i < List.length l -> index l i = Ok (nth i l "").
Proof.
  intro H. unfold index. now rewrite (nth_error_nth' l "" H).
Qed.

(** With 65 fields or more, the five fields are read and the record is
    built from them. *)
Lemma process_user_enough (fields : list string) :
  65 <= List.length fields ->
  process_user P fields =
  (dt <- split_datetime P (nth 15 fields "") ;;
   ip_final <- convert_ip (nth 64 fields "") ;;
   Ok (Some (mk_user (nth 1 fields "") (nth 5 fields "") (fst dt) (snd dt)
               ip_final (nth 2 fields "")), None)).
Proof.
  intro H. unfold process_user.
  rewrite !index_ok by lia. reflexivity.
Qed.

(** With fewer, one of the five reads raises [IndexError]. *)
Lemma process_user_short (fields : list string) :
  List.length fields < 65 ->
  process_user P fields = Ok (None, Some "Not enough fields").
Proof.
  intro H. unfold process_user.
  assert (E : index fields 64 = Raise IndexError).
  { unfold index. replace (nth_error fields 64) with (@None string); trivial.
    symmetry. apply nth_error_None. lia. }
  rewrite E. unfold index.
  destruct (nth_error fields 1), (nth_error fields 5), (nth_error fields 15);
    reflexivity.
Qed.

(** C5. Normalization reports that there are not enough fields, with no
    record, exactly when the field sequence has fewer than 65 elements;
    every sequence of 10 elements is rejected that way. *)
Theorem insufficient_fields_iff (fields : list string) :
  (process_user P fields = Ok (None, Some "Not enough fields")
   <-> List.length fields < 65) /\
  (forall a0 a1 a2 a3 a4 a5 a6 a7 a8 a9 : string,
     process_user P [a0; a1; a2; a3; a4; a5; a6; a7; a8; a9]
     = Ok (None, Some "Not enough fields")).
Proof.
  split; [split|].
  - intro H. destruct (Nat.lt_ge_cases (List.length fields) 65) as [|Hge];
      trivial.
    rewrite (process_user_enough fields Hge) in H.
    destruct (split_datetime P (nth 15 fields "")); [|discriminate].
    destruct (IpFacts.convert_ip_total (nth 64 fields "")) as (ip & E).
    rewrite E in H. discriminate.
  - apply process_user_short.
  - intros. apply process_user_short. simpl. lia.
Qed.

(** With 65 fields or more the conversion of the address, which never
    raises, can be taken out of the sequence. *)
Lemma process_user_record (fields : list string) :
  65 <= List.length fields ->
  exists ip_final,
    convert_ip (nth 64 fields "") = Ok ip_final /\
    process_user P fields =
    (dt <- split_datetime P (nth 15 fields "") ;;
     Ok (Some (mk_user (nth 1 fields "") (nth 5 fields "") (fst dt) (snd dt)
                 ip_final (nth 2 fields "")), None)).
Proof.
  intro H. destruct (IpFacts.convert_ip_total (nth 64 fields "")) as (ip & E).
  exists ip. split; [exact E|].
  rewrite (process_user_enough fields H), E. reflexivity.
Qed.

(** C7. With at least 65 fields, the record has the element at index 1 as
    username, the one at index 2 as password hash and the one at index 5
    as email; its date and time are those computed from the element at
    index 15 alone and its address is the one computed from the element
    at index 64 alone.  The record is returned whenever the conversion of
    the timestamp does not raise. *)
Theorem fixed_positions (fields : list string) :
  65 <= List.length fields ->
  exists ip_final,
    convert_ip (nth 64 fields "") = Ok ip_final /\
    process_user P fields =
    (dt <- split_datetime P (nth 15 fields "") ;;
     Ok (Some (mk_user (nth 1 fields "") (nth 5 fields "") (fst dt) (snd dt)
                 ip_final (nth 2 fields "")), None)).
Proof.
  intro H. rewrite (process_user_enough fields H).
  destruct (IpFacts.convert_ip_total (nth 64 fields "")) as (ip & E).
  exists ip. rewrite E. split; reflexivity.
Qed.

Lemma split_datetime_invalid (regdate : string) :
  PyNum.float_syntax regdate = None ->
  split_datetime P regdate = Ok ("(invalid)", "(invalid)").
Proof.
  intro H. unfold split_datetime, int_float. now rewrite H.
Qed.

(** C3. With at least 65 fields, when the element at index 15 is not
    accepted by [float], the date and the time of the record are both the
    text (invalid); the record is returned all the same, with the other
    fields as usual, and nothing is raised. *)
Theorem invalid_timestamp_keeps_record (fields : list string) :
  65 <= List.length fields ->
  PyNum.float_syntax (nth 15 fields "") = None ->
  exists ip_final,
    convert_ip (nth 64 fields "") = Ok ip_final /\
    process_user P fields =
    Ok (Some (mk_user (nth 1 fields "") (nth 5 fields "") "(invalid)"
                "(invalid)" ip_final (nth 2 fields "")), None).
Proof.
  intros H Hf. destruct (process_user_record fields H) as (ip & E & Hp).
  exists ip. split; [exact E|].
  rewrite Hp, (split_datetime_invalid _ Hf). reflexivity.
Qed.

(** C6. With at least 65 fields and a timestamp whose conversion
    completes, the record is returned and its address comes from the
    element at index 64: that element itself when it does not begin with
    0x in any case; when it does and what follows is a string of pairs of
    hex digits, the values of the pairs, each between 0 and 255, in
    decimal and joined with dots. *)
Theorem ip_conversion (fields : list string) (d t : string) :
  65 <= List.length fields ->
  split_datetime P (nth 15 fields "") = Ok (d, t) ->
  exists r,
    process_user P fields = Ok (Some r, None) /\
    (Py.startswith "0x" (Py.lower (nth 64 fields "")) = false ->
     last_ip r = nth 64 fields "") /\
    (forall vs,
       Py.startswith "0x" (Py.lower (nth 64 fields "")) = true ->
       Spec.hex_pairs (Py.slice_from (nth 64 fields "") 2) = Some vs ->
       last_ip r = Spec.dotted vs /\ Forall (fun v => 0 <= v <= 255)%Z vs).
Proof.
  intros H Hd. destruct (process_user_record fields H) as (ip & E & Hp).
  rewrite Hd in Hp. cbn [bind fst snd] in Hp.
  eexists. split; [exact Hp|]. cbn [last_ip]. split.
  - intro Hs. rewrite (IpFacts.convert_ip_plain _ Hs) in E. congruence.
  - intros vs Hs Hv. rewrite (IpFacts.convert_ip_hex _ vs Hs Hv) in E.
    split; [congruence|]. apply (IpFacts.group_values_pairs _ _ Hv).
Qed.


End NormalizerFacts.

Lemma fixed_positions_witness :
  exists ip_final,
    convert_ip "0x0A000001" = Ok ip_final /\
    Demo.process_user
      (Demo.row "alice" "hash123" "alice@example.com" "1700000000"
         "0x0A000001")
    = (dt <- Demo.split_datetime "1700000000" ;;
       Ok (Some (mk_user "alice" "alice@example.com" (fst dt) (snd dt)
                   ip_final "hash123"), None)).
Proof.
  apply (fixed_positions Demo.utc
           (Demo.row "alice" "hash123" "alice@example.com" "1700000000"
              "0x0A000001")).
  simpl. lia.
Defined.

Lemma invalid_timestamp_keeps_record_witness :
  exists ip_final,
    convert_ip "0x0A000001" = Ok ip_final /\
    Demo.process_user
      (Demo.row "alice" "hash123" "alice@example.com" "not_a_number"
         "0x0A000001")
    = Ok (Some (mk_user "alice" "alice@example.com" "(invalid)" "(invalid)"
                  ip_final "hash123"), None).
Proof.
  apply (invalid_timestamp_keeps_record Demo.utc
           (Demo.row "alice" "hash123" "alice@example.com" "not_a_number"
              "0x0A000001")).
  - simpl. lia.
  - reflexivity.
Defined.

Lemma ip_conversion_witness :
  exists r,
    Demo.process_user
      (Demo.row "alice" "hash123" "alice@example.com" "1700000000"
         "0x7F000001")
    = Ok (Some r, None) /\
    last_ip r = "127.0.0.1".
Proof.
  destruct (ip_conversion Demo.utc
              (Demo.row "alice" "hash123" "alice@example.com" "1700000000"
                 "0x7F000001")
              "2023-11-14" "22:13:20")
    as (r & Hr & _ & Hhex).
  - simpl. lia.
  - reflexivity.
  - exists r. split; [exact Hr|].
    apply (Hhex [127; 0; 0; 1]%Z); reflexivity.
Defined.

(** C2. The defect: at the field 0xABC, whose remainder has an odd
    length, the claim requires the marker (bad hex: 0xABC); the code
    reads the last group, a single hex digit, as a number and returns the
    record with the address 171.12. *)
Lemma odd_length_hex_not_rejected :
  let fields :=
    Demo.row "alice" "hash123" "alice@example.com" "not_a_number" "0xABC" in
  65 <= List.length fields /\
  Py.startswith "0x" (Py.lower (nth 64 fields "")) = true /\
  Spec.hex_pairs (Py.slice_from (nth 64 fields "") 2) = None /\
  Demo.process_user fields
  = Ok (Some (mk_user "alice" "alice@example.com" "(invalid)" "(invalid)"
                "171.12" "hash123"), None) /\
  ~ (exists r,
       Demo.process_user fields = Ok (Some r, None) /\
       last_ip r = "(bad hex: " ++ nth 64 fields "" ++ ")").
Proof.
  cbv zeta. split; [simpl; lia|]. split; [reflexivity|].
  split; [reflexivity|]. split; [reflexivity|].
  intros (r & Hr & Hip). vm_compute in Hr. injection Hr as <-.
  vm_compute in Hip. discriminate.
Qed.


(** ** The loop *)

Section LoopFacts.

Variable P : platform.


(** A line changes the counters only when it passes every filter, and
    then both are incremented. *)
Lemma loop_body_step (csv : bool) (st st' : loop_state) (line : string) :
  loop_body P csv st line = Ok st' ->
  st' = st \/
  (Py.truthy (Py.strip line) = true /\
   Py.contains "@" (Py.strip line) = true /\
   (exists fields u,
      parse_values_line (Py.strip line) = Some fields /\
      64 < List.length fields /\
      process_user P fields = Ok (Some u, None)) /\
   processed st' = S (processed st) /\
   valid_users st' = S (valid_users st)).
Proof.
  unfold loop_body. intro H.
  destruct (Py.truthy (Py.strip line)) eqn:Et; cbn [negb orb] in H;
    [|left; congruence].
  destruct (Py.contains "@" (Py.strip line)) eqn:Ec; cbn [negb] in H;
    [|left; congruence].
  destruct (parse_values_line (Py.strip line)) as [fields|] eqn:Ep;
    [|left; congruence].
  destruct (List.length fields =? 0)%nat; cbn [orb] in H; [left; congruence|].
  destruct (List.length fields <=? 64)%nat eqn:El; [left; congruence|].
  apply Nat.leb_gt in El.
  destruct (process_user P fields) as [[user_data error]|e] eqn:Eu;
    cbn [bind fst snd] in H; [|discriminate].
  destruct (error_set error) eqn:Ee; [left; congruence|].
  destruct user_data as [u|]; cbn [emit] in H; [|discriminate].
  assert (Hn : error = None).
  { rewrite (process_user_enough _ fields) in Eu by lia.
    destruct (split_datetime _ _); [|discriminate].
    destruct (convert_ip _); [|discriminate].
    cbn [bind] in Eu. congruence. }
  subst error. right.
  split; [reflexivity|]. split; [reflexivity|]. split.
  - exists fields, u. auto.
  - destruct ((S (processed st) mod 500 =? 0)%nat && negb csv);
      injection H as <-; split; reflexivity.
Qed.

Lemma loop_body_keeps (csv : bool) (st st' : loop_state) (line : string) :
  loop_body P csv st line = Ok st' ->
  processed st = valid_users st -> processed st' = valid_users st'.
Proof.
  intros H E. destruct (loop_body_step csv st st' line H)
    as [->|(_ & _ & _ & -> & ->)]; congruence.
Qed.

Lemma run_keeps (csv : bool) (lines : list string) : forall st,
  processed st = valid_users st ->
  processed (fst (main_loop P csv st lines))
  = valid_users (fst (main_loop P csv st lines)).
Proof.
  induction lines as [|line rest IH]; intros st E; cbn [main_loop].
  - exact E.
  - destruct (loop_body P csv st line) as [st'|e] eqn:Eb; [|exact E].
    apply IH, (loop_body_keeps csv st st' line Eb E).
Qed.

Lemma trace_keeps (csv : bool) (lines : list string) : forall st,
  processed st = valid_users st ->
  Forall (fun s => processed s = valid_users s) (loop_trace P csv st lines).
Proof.
  induction lines as [|line rest IH]; intros st E; cbn [loop_trace].
  - constructor.
  - destruct (loop_body P csv st line) as [st'|e] eqn:Eb; [|constructor].
    pose proof (loop_body_keeps csv st st' line Eb E). constructor; auto.
Qed.

(** C10. The two counters of the loop move together: after every
    iteration, and in the state the loop stops in, the number of lines
    processed equals the number of valid users, so the summary prints the
    same number twice.  An iteration leaves the state as it was unless
    the line, once trimmed, is not empty, contains an at sign, is
    tokenized into more than 64 fields and is normalized into a record;
    it then adds one to each counter. *)
Theorem counters_move_together (csv : bool) (lines : list string) :
  Forall (fun s => processed s = valid_users s)
         (loop_trace P csv initial lines) /\
  processed (fst (main_loop P csv initial lines))
  = valid_users (fst (main_loop P csv initial lines)) /\
  (forall st st' line,
     loop_body P csv st line = Ok st' ->
     st' = st \/
     (Py.truthy (Py.strip line) = true /\
      Py.contains "@" (Py.strip line) = true /\
      (exists fields u,
         parse_values_line (Py.strip line) = Some fields /\
         64 < List.length fields /\
         process_user P fields = Ok (Some u, None)) /\
      processed st' = S (processed st) /\
      valid_users st' = S (valid_users st))).
Proof.
  split; [|split].
  - apply trace_keeps. reflexivity.
  - apply run_keeps. reflexivity.
  - intros st st' line. apply loop_body_step.
Qed.

End LoopFacts.

(** * Further properties of the program *)

(** ** The tokenizer *)

Lemma endswith_quote_inv s :
  Py.endswith "'" s = true -> exists b, s = b ++ "'".
Proof.
  unfold Py.endswith. cbn [length]. intro H.
  apply andb_true_iff in H. destruct H as [Hl H].
  apply Nat.leb_le in Hl. apply String.eqb_eq in H.
  induction s as [|c r IH]; [simpl in Hl; lia|].
  destruct r as [|d r'].
  - simpl in H. exists "". simpl. congruence.
  - cbn [length] in *.
    replace (S (S (length r')) - 1) with (S (S (length r') - 1)) in H by lia.
    cbn [substring] in H. destruct IH as (b & Hb); [lia | exact H |].
    exists (String c b). simpl. now rewrite <- Hb.
Qed.

Lemma unwrap_cases (f : string) :
  if Py.startswith "'" f && Py.endswith "'" f
  then (f = "'" /\ unwrap f = "") \/ f = "'" ++ unwrap f ++ "'"
  else unwrap f = f.
Proof.
  destruct (Py.startswith "'" f && Py.endswith "'" f) eqn:E.
  - apply andb_true_iff in E. destruct E as [Es Ee].
    destruct (endswith_quote_inv f Ee) as (b & ->).
    destruct b as [|c b].
    + left. split; reflexivity.
    + right. unfold Py.startswith in Es. cbn [append prefix] in Es.
      destruct (ascii_dec "'" c) as [<-|]; [|discriminate].
      change (String "'" b ++ "'") with ("'" ++ b ++ "'").
      now rewrite TupleFacts.unwrap_quoted.
  - unfold unwrap. now rewrite E.
Qed.

(** X1. Unwrapping removes exactly one quote at each end, whatever is
    between them, and only from a field that both starts and ends with a
    quote; the field made of a single quote becomes empty. *)
Theorem unwrap_one_layer (f : string) :
  (forall body, unwrap ("'" ++ body ++ "'") = body) /\
  (if Py.startswith "'" f && Py.endswith "'" f
   then (f = "'" /\ unwrap f = "") \/ f = "'" ++ unwrap f ++ "'"
   else unwrap f = f).
Proof.
  split.
  - intro body. apply TupleFacts.unwrap_quoted.
  - apply unwrap_cases.
Qed.

Lemma segments_concat s : forall q, concat "," (Spec.segments q s) = s.
Proof.
  induction s as [|c r IH]; intro q; [reflexivity|].
  cbn [Spec.segments]. destruct (c =? "'")%char.
  - specialize (IH (negb q)).
    destruct (ScanFacts.segments_cons (negb q) r) as (seg & rest & E).
    rewrite E in *. destruct rest; simpl in *; congruence.
  - destruct ((c =? ",")%char && negb q) eqn:Ec.
    + apply andb_true_iff in Ec. destruct Ec as [Ec _].
      apply Ascii.eqb_eq in Ec. subst c. specialize (IH q).
      destruct (ScanFacts.segments_cons q r) as (seg & rest & E).
      rewrite E in *. simpl in *. congruence.
    + specialize (IH q).
      destruct (ScanFacts.segments_cons q r) as (seg & rest & E).
      rewrite E in *. destruct rest; simpl in *; congruence.
Qed.

(** X3. The tokenizer returns the empty sequence for the empty tuple
    only: any other captured text gives at least one field. *)
Theorem no_field_iff_empty_tuple (line : string) :
  parse_values_line line = Some [] <-> Regex.search line = Some "".
Proof.
  unfold parse_values_line. split.
  - destruct (Regex.search line) as [s|]; [|discriminate]. intro H.
    injection H as H. rewrite ScanFacts.split_fields_segments in H.
    apply map_eq_nil, map_eq_nil in H. unfold Spec.trailing_text in H.
    pose proof (segments_concat s false) as Hc.
    destruct (ScanFacts.segments_cons false s) as (seg & rest & E).
    rewrite E in *.
    destruct (Py.truthy (last (seg :: rest) "")) eqn:Et; [discriminate|].
    destruct rest as [|seg' rest]; [|destruct rest; discriminate].
    simpl in Et, Hc. subst seg. destruct s; [reflexivity | discriminate].
  - intros ->. reflexivity.
Qed.

Lemma all_spaces_app a b :
  Spec.all_spaces (a ++ b) = Spec.all_spaces a && Spec.all_spaces b.
Proof.
  induction a as [|c r IH]; simpl; trivial. rewrite IH. apply andb_assoc.
Qed.

Lemma bool_iff (a b : bool) : (a = true <-> b = true) -> a = b.
Proof. destruct a, b; intros [H1 H2]; auto; symmetry; auto. Qed.

Lemma isspace_not_close c : Py.isspace c = true -> (c =? ")")%char = false.
Proof. ascii_cases c; simpl; intro; try reflexivity; discriminate. Qed.

Lemma isspace_lower c : Py.isspace c = true -> Py.char_lower c = c.
Proof. ascii_cases c; simpl; intro; try reflexivity; discriminate. Qed.

Section TrailingBlanks.

Variable ws : string.
Hypothesis blanks : Spec.all_spaces ws = true.

Lemma spaces_end_blanks s : Regex.spaces_end (s ++ ws) = Regex.spaces_end s.
Proof.
  apply bool_iff. rewrite !RegexFacts.spaces_end_iff, all_spaces_app, blanks.
  now rewrite andb_true_r.
Qed.

Lemma semi_spaces_end_blanks s :
  Regex.semi_spaces_end (s ++ ws) = Regex.semi_spaces_end s.
Proof.
  destruct s as [|c r].
  - cbn [append]. apply bool_iff. split; [reflexivity|]. intros _.
    apply RegexFacts.semi_spaces_end_iff. exists "", ws. auto.
  - cbn [append Regex.semi_spaces_end].
    change (String c (r ++ ws)) with (String c r ++ ws).
    now rewrite !spaces_end_blanks.
Qed.

Lemma close_tail_blanks s : Regex.close_tail (s ++ ws) = Regex.close_tail s.
Proof.
  destruct s as [|c r].
  - cbn [append]. destruct ws as [|c r]; [reflexivity|].
    cbn [Regex.close_tail]. simpl in blanks.
    apply andb_true_iff in blanks. destruct blanks as [Hc _].
    now rewrite (isspace_not_close c Hc).
  - cbn [append Regex.close_tail]. now rewrite semi_spaces_end_blanks.
Qed.

Lemma group_tail_only_blanks s :
  Spec.all_spaces s = true -> Regex.group_tail s = None.
Proof.
  induction s as [|c r IH]; [reflexivity|]. intro H. simpl in H.
  apply andb_true_iff in H. destruct H as [Hc Hr].
  cbn [Regex.group_tail Regex.close_tail]. rewrite (IH Hr).
  now rewrite (isspace_not_close c Hc).
Qed.

Lemma group_tail_blanks s : Regex.group_tail (s ++ ws) = Regex.group_tail s.
Proof.
  induction s as [|c r IH].
  - apply group_tail_only_blanks, blanks.
  - cbn [append Regex.group_tail]. rewrite IH.
    change (String c (r ++ ws)) with (String c r ++ ws).
    now rewrite close_tail_blanks.
Qed.

Lemma spaces_open_only_blanks s :
  Spec.all_spaces s = true -> Regex.spaces_open s = None.
Proof.
  induction s as [|c r IH]; [reflexivity|]. intro H. simpl in H.
  apply andb_true_iff in H. destruct H as [Hc Hr].
  cbn [Regex.spaces_open]. rewrite Hc, (IH Hr).
  now rewrite (isspace_not_paren c Hc).
Qed.

Lemma spaces_open_blanks s :
  Regex.spaces_open (s ++ ws) = Regex.spaces_open s.
Proof.
  induction s as [|c r IH].
  - apply spaces_open_only_blanks, blanks.
  - cbn [append Regex.spaces_open]. now rewrite IH, group_tail_blanks.
Qed.

(** A keyword without blank letters is not completed by blanks. *)
Lemma keyword_blanks kw : forall s,
  (forall c, Py.isspace c = true -> Py.contains c (Py.lower kw) = false) ->
  Regex.keyword kw (s ++ ws)
  = match Regex.keyword kw s with
    | Some r => Some (r ++ ws)
    | None => None
    end.
Proof.
  induction kw as [|k kw IH]; intros s Hk; [reflexivity|].
  destruct s as [|c r].
  - cbn [append Regex.keyword]. destruct ws as [|c r]; [reflexivity|].
    simpl in blanks. apply andb_true_iff in blanks.
    destruct blanks as [Hc _]. unfold Regex.ci_eq.
    rewrite (isspace_lower c Hc). specialize (Hk c Hc).
    cbn [Py.lower Py.contains] in Hk. apply orb_false_iff in Hk.
    destruct Hk as [Hk _]. rewrite Ascii.eqb_sym, Hk. reflexivity.
  - cbn [append Regex.keyword]. destruct (Regex.ci_eq k c); [|reflexivity].
    apply IH. intros d Hd. specialize (Hk d Hd).
    cbn [Py.lower Py.contains] in Hk. apply orb_false_iff in Hk. apply Hk.
Qed.

Lemma values_no_blank c :
  Py.isspace c = true -> Py.contains c (Py.lower "VALUES") = false.
Proof. ascii_cases c; simpl; intro; try reflexivity; discriminate. Qed.

Lemma match_here_blanks s : Regex.match_here (s ++ ws) = Regex.match_here s.
Proof.
  unfold Regex.match_here. rewrite (keyword_blanks "VALUES" s values_no_blank).
  destruct (Regex.keyword "VALUES" s); [apply spaces_open_blanks | reflexivity].
Qed.

Lemma search_only_blanks s :
  Spec.all_spaces s = true -> Regex.search s = None.
Proof.
  induction s as [|c r IH]; [reflexivity|]. intro H.
  rewrite RegexFacts.search_eq. simpl in H.
  apply andb_true_iff in H. destruct H as [Hc Hr]. rewrite (IH Hr).
  unfold Regex.match_here. cbn [Regex.keyword]. unfold Regex.ci_eq.
  rewrite (isspace_lower c Hc).
  pose proof (values_no_blank c Hc) as Hv. cbn [Py.lower Py.contains] in Hv.
  apply orb_false_iff in Hv. destruct Hv as [Hv _].
  rewrite Ascii.eqb_sym, Hv. reflexivity.
Qed.

Lemma search_blanks s : Regex.search (s ++ ws) = Regex.search s.
Proof.
  induction s as [|c r IH].
  - cbn [append]. now rewrite (search_only_blanks ws blanks).
  - rewrite (RegexFacts.search_eq (String c r ++ ws)), match_here_blanks.
    rewrite (RegexFacts.search_eq (String c r)).
    destruct (Regex.match_here (String c r)); [reflexivity|]. exact IH.
Qed.

End TrailingBlanks.

(** X4. Whitespace after the statement, a final newline for instance,
    does not change what the tokenizer returns. *)
Theorem trailing_blanks_ignored (line ws : string) :
  Spec.all_spaces ws = true ->
  parse_values_line (line ++ ws) = parse_values_line line.
Proof.
  intro H. unfold parse_values_line. now rewrite (search_blanks ws H).
Qed.

Lemma trailing_blanks_ignored_witness :
  parse_values_line ("INSERT INTO t VALUES (1,'a');" ++ String "010" "")
  = parse_values_line "INSERT INTO t VALUES (1,'a');".
Proof.
  exact (trailing_blanks_ignored "INSERT INTO t VALUES (1,'a');"
           (String "010" "") eq_refl).
Defined.

Lemma contains_app c a b :
  Py.contains c (a ++ b) = Py.contains c a || Py.contains c b.
Proof.
  induction a as [|d r IH]; simpl; trivial. rewrite IH. apply orb_assoc.
Qed.

Lemma spaces_no_close s :
  Spec.all_spaces s = true -> Py.contains ")" s = false.
Proof.
  induction s as [|c r IH]; simpl; trivial. intro H.
  apply andb_true_iff in H. destruct H as [Hc Hr].
  now rewrite (isspace_not_close c Hc), (IH Hr).
Qed.

(** X5. The captured text runs from an opening parenthesis to the last
    closing parenthesis of the line: no closing parenthesis follows it, so
    a statement with several tuples is captured as one text. *)
Theorem captured_to_last_parenthesis (line values_str : string) :
  Regex.search line = Some values_str ->
  exists before after,
    line = before ++ "(" ++ values_str ++ ")" ++ after /\
    Py.contains ")" after = false.
Proof.
  intro H. apply RegexFacts.search_sound in H.
  destruct H as (before & rest & -> & Hm). unfold Regex.match_here in Hm.
  destruct (Regex.keyword "VALUES" rest) as [r|] eqn:Ek; [|discriminate].
  apply RegexFacts.keyword_iff in Ek. destruct Ek as (kw & -> & _).
  apply RegexFacts.spaces_open_sound in Hm.
  destruct Hm as (gap & rest' & -> & _ & Hg).
  apply RegexFacts.group_tail_sound in Hg. destruct Hg as (tl & -> & Htl).
  apply RegexFacts.semi_spaces_end_iff in Htl.
  destruct Htl as (semi & trail & -> & Hsemi & Htrail).
  exists (before ++ kw ++ gap), (semi ++ trail). split.
  - now rewrite !append_assoc.
  - rewrite contains_app, (spaces_no_close trail Htrail).
    destruct Hsemi as [-> | ->]; reflexivity.
Qed.

Lemma captured_to_last_parenthesis_witness :
  exists before after,
    "INSERT INTO t VALUES (1,'a'),(2,'b');"
    = before ++ "(" ++ "1,'a'),(2,'b'" ++ ")" ++ after /\
    Py.contains ")" after = false.
Proof.
  exact (captured_to_last_parenthesis
           "INSERT INTO t VALUES (1,'a'),(2,'b');" "1,'a'),(2,'b'" eq_refl).
Defined.

(** X2. The fields are the pieces of the captured text between its
    unquoted commas, in the order of the text, each one trimmed and then
    unwrapped: nothing is reordered, merged or dropped, except a last
    piece that is empty.  The pieces, joined with commas, are the
    captured text. *)
Theorem fields_are_trimmed_pieces (line values_str : string) :
  Regex.search line = Some values_str ->
  parse_values_line line
  = Some (map (fun piece => unwrap (Py.strip piece))
            (if Py.truthy (Spec.trailing_text values_str)
             then Spec.segments false values_str
             else removelast (Spec.segments false values_str))) /\
  concat "," (Spec.segments false values_str) = values_str.
Proof.
  intro H. split.
  - unfold parse_values_line. rewrite H.
    rewrite ScanFacts.split_fields_segments, map_map. reflexivity.
  - apply segments_concat.
Qed.

Lemma fields_are_trimmed_pieces_witness :
  parse_values_line "VALUES ( 1 , ' a, b ' , NULL ,)"
  = Some ["1"; " a, b "; "NULL"] /\
  concat "," [" 1 "; " ' a, b ' "; " NULL "; ""] = " 1 , ' a, b ' , NULL ,".
Proof.
  exact (fields_are_trimmed_pieces "VALUES ( 1 , ' a, b ' , NULL ,)"
           " 1 , ' a, b ' , NULL ," eq_refl).
Defined.

Lemma escaped_closed n : forall body,
  length body <= n -> Spec.sql_escaped body = true ->
  Spec.unquoted_commas true body = 0 /\ Spec.end_quote true body = true.
Proof.
  induction n as [|n IH]; intros body Hl He.
  - destruct body; [auto | simpl in Hl; lia].
  - destruct body as [|c r]; [auto|].
    cbn [Spec.sql_escaped Spec.unquoted_commas Spec.end_quote] in *.
    destruct (c =? "'")%char.
    + destruct r as [|d r']; [discriminate|].
      apply andb_true_iff in He. destruct He as [Hd He].
      cbn [Spec.unquoted_commas Spec.end_quote]. rewrite Hd.
      apply IH; [simpl in Hl; lia | exact He].
    + rewrite andb_false_r. apply IH; [simpl in Hl; lia | exact He].
Qed.

Lemma escaped_literal_closed l :
  Spec.wf_escaped_literal l = true ->
  Spec.unquoted_commas false (Spec.render_literal l) = 0 /\
  Spec.end_quote false (Spec.render_literal l) = false.
Proof.
  destruct l as [body|token]; intro H.
  - destruct (escaped_closed (length body) body (le_n _) H) as [Hc He].
    cbn [Spec.render_literal append Spec.unquoted_commas Spec.end_quote].
    cbn [Ascii.eqb Bool.eqb negb].
    rewrite TupleFacts.unquoted_commas_app, TupleFacts.end_quote_app, Hc, He.
    auto.
  - apply TupleFacts.literal_closed, H.
Qed.

Lemma escaped_literal_ends l :
  Spec.wf_escaped_literal l = true ->
  Spec.not_space (Spec.first_char (Spec.render_literal l)) = true /\
  Spec.not_space (Spec.last_char (Spec.render_literal l)) = true.
Proof.
  destruct l as [body|token]; intro H.
  - cbn [Spec.render_literal]. split; [reflexivity|].
    change ("'" ++ body ++ "'") with (String "'" body ++ "'").
    rewrite TupleFacts.last_char_app. reflexivity.
  - apply TupleFacts.literal_ends, H.
Qed.

Lemma escaped_value_closed v :
  Spec.wf_escaped_value v = true ->
  Spec.unquoted_commas false (Spec.render v) = 0 /\
  Spec.end_quote false (Spec.render v) = false.
Proof.
  unfold Spec.wf_escaped_value, Spec.render. intro H.
  apply andb_true_iff in H. destruct H as [H Hr].
  apply andb_true_iff in H. destruct H as [Hl Hw].
  destruct (TupleFacts.spaces_plain _ Hl) as [Hl1 Hl2].
  destruct (TupleFacts.spaces_plain _ Hr) as [Hr1 Hr2].
  destruct (escaped_literal_closed _ Hw) as [Hc He].
  rewrite !TupleFacts.unquoted_commas_app, !TupleFacts.end_quote_app.
  rewrite (TupleFacts.no_quote_end _ _ Hl1), He.
  rewrite (TupleFacts.no_quote_end _ _ Hr1).
  rewrite (TupleFacts.no_comma_commas _ _ Hl1 Hl2), Hc.
  rewrite (TupleFacts.no_comma_commas _ _ Hr1 Hr2). auto.
Qed.

(** Texts that scan as one piece each, joined with commas, are the pieces
    of the whole. *)
Lemma segments_pieces (xs : list string) :
  xs <> [] ->
  Forall (fun x => Spec.unquoted_commas false x = 0 /\
                   Spec.end_quote false x = false) xs ->
  Spec.segments false (concat "," xs) = xs.
Proof.
  induction xs as [|x xs IH]; [congruence|]. intros _ H.
  inversion H as [|? ? [Hc He] Hxs]; subst.
  destruct xs as [|x' xs].
  - cbn [concat]. rewrite <- (append_nil_r x) at 1.
    rewrite (TupleFacts.segments_app _ _ _ Hc). simpl.
    now rewrite append_nil_r.
  - change (concat "," (x :: x' :: xs))
      with (x ++ "," ++ concat "," (x' :: xs)).
    rewrite (TupleFacts.segments_app _ _ _ Hc), He. cbn [append].
    cbn [Spec.segments]. cbn [Ascii.eqb Bool.eqb andb negb].
    rewrite append_nil_r. f_equal. apply IH; [discriminate | exact Hxs].
Qed.

Lemma escaped_field_of_value v :
  Spec.wf_escaped_value v = true ->
  Py.truthy (Spec.render v) = true /\
  unwrap (Py.strip (Spec.render v)) = Spec.payload v.
Proof.
  unfold Spec.wf_escaped_value. intro H.
  apply andb_true_iff in H. destruct H as [H Hr].
  apply andb_true_iff in H. destruct H as [Hl Hw].
  destruct (escaped_literal_ends _ Hw) as [Hf Hz]. split.
  - unfold Spec.render. destruct (Spec.pad_left v); simpl; trivial.
    destruct (Spec.render_literal (Spec.lit v)); simpl;
      [discriminate | trivial].
  - unfold Spec.render, Py.strip. rewrite (TupleFacts.lstrip_spaces _ _ Hl).
    assert (Hf' : Spec.not_space
                    (Spec.first_char (Spec.render_literal (Spec.lit v)
                                      ++ Spec.pad_right v)) = true).
    { destruct (Spec.render_literal (Spec.lit v)); [discriminate | exact Hf]. }
    rewrite (TupleFacts.lstrip_id _ Hf'), (TupleFacts.rstrip_spaces _ _ Hr).
    rewrite (TupleFacts.rstrip_id _ Hz). unfold Spec.payload.
    destruct (Spec.lit v) as [body|token].
    + apply TupleFacts.unwrap_quoted.
    + apply (TupleFacts.unwrap_render_literal (Spec.Bare token)), Hw.
Qed.

(** X6. Quotes doubled inside a quoted value, the way SQL writes a quote,
    do not break the splitting: a tuple of values whose quoted bodies have
    all their quotes doubled is tokenized into one field per value, and
    the field of a quoted value is its body as written, the doubled quotes
    left as they are. *)
Theorem doubled_quotes_stay_in_field (line : string) (vs : list Spec.value) :
  vs <> [] ->
  forallb Spec.wf_escaped_value vs = true ->
  Regex.search line = Some (Spec.render_tuple vs) ->
  parse_values_line line = Some (map Spec.payload vs).
Proof.
  intros Hne Hwf Hs. unfold parse_values_line. rewrite Hs. f_equal.
  rewrite ScanFacts.split_fields_segments. unfold Spec.trailing_text.
  rewrite forallb_forall in Hwf. unfold Spec.render_tuple.
  rewrite segments_pieces.
  - assert (Hlast : Py.truthy (last (map Spec.render vs) "") = true).
    { destruct (exists_last Hne) as (init & v & ->).
      rewrite map_app. cbn [map]. rewrite last_last.
      apply escaped_field_of_value, Hwf, in_or_app. right. left. reflexivity. }
    rewrite Hlast, !map_map. apply map_ext_in. intros v Hv.
    apply escaped_field_of_value, Hwf, Hv.
  - destruct vs; [congruence | discriminate].
  - apply Forall_map, Forall_forall. intros v Hv.
    apply escaped_value_closed, Hwf, Hv.
Qed.

Lemma doubled_quotes_stay_in_field_witness :
  parse_values_line "INSERT INTO t VALUES (7, 'O''Brien, Pat' ,NULL);"
  = Some ["7"; "O''Brien, Pat"; "NULL"].
Proof.
  apply (doubled_quotes_stay_in_field
           "INSERT INTO t VALUES (7, 'O''Brien, Pat' ,NULL);"
           [Spec.mk_value "" (Spec.Bare "7") "";
            Spec.mk_value " " (Spec.Quoted "O''Brien, Pat") " ";
            Spec.mk_value "" (Spec.Bare "NULL") ""]).
  - discriminate.
  - reflexivity.
  - reflexivity.
Defined.

(** ** The conversion of the address, further *)

(** X7. The conversion of the address never raises: a field without the
    prefix is returned as it is, and a field with the prefix gives either
    the dotted values of its groups or the marker built on the field. *)
Theorem address_conversion_never_raises (lastip : string) :
  exists ip_final,
    convert_ip lastip = Ok ip_final /\
    (Py.startswith "0x" (Py.lower lastip) = false -> ip_final = lastip) /\
    (Py.startswith "0x" (Py.lower lastip) = true ->
     ip_final = "(bad hex: " ++ lastip ++ ")" \/
     exists vs,
       group_values (hex_groups (Py.slice_from lastip 2)) = Ok vs /\
       ip_final = Spec.dotted vs).
Proof.
  unfold convert_ip. destruct (Py.startswith "0x" (Py.lower lastip)).
  - destruct (group_values (hex_groups (Py.slice_from lastip 2)))
      as [vs|e] eqn:E; cbn [bind try_except].
    + eexists. split; [reflexivity|]. split; [discriminate|].
      intros _. right. exists vs. auto.
    + rewrite (IpFacts.group_values_raises _ _ E). cbn [handles_hex].
      eexists. split; [reflexivity|]. split; [discriminate|]. auto.
  - exists lastip. split; [reflexivity|]. split; [auto | discriminate].
Qed.

Lemma uint_dotted d : Spec.all_dotted (NilEmpty.string_of_uint d) = true.
Proof. induction d; simpl; trivial. Qed.

Lemma str_of_int_dotted v : Spec.all_dotted (Py.str_of_int v) = true.
Proof.
  unfold Py.str_of_int, NilZero.string_of_int, NilZero.string_of_uint.
  destruct (Z.to_int v) as [d|d]; destruct d; try reflexivity;
    apply (uint_dotted (_ _)) || (cbn [Spec.all_dotted]; apply (uint_dotted (_ _))).
Qed.

Lemma all_dotted_app a b :
  Spec.all_dotted (a ++ b) = Spec.all_dotted a && Spec.all_dotted b.
Proof.
  induction a as [|c r IH]; simpl; trivial. rewrite IH. apply andb_assoc.
Qed.

Lemma dotted_all vs : Spec.all_dotted (Spec.dotted vs) = true.
Proof.
  unfold Spec.dotted, Py.join. induction vs as [|v vs IH]; [reflexivity|].
  cbn [map concat]. destruct (map Py.str_of_int vs) eqn:E.
  - apply str_of_int_dotted.
  - rewrite !all_dotted_app, str_of_int_dotted. exact IH.
Qed.

Lemma dotted_char_not_x c :
  Spec.dotted_char c = true -> Py.char_lower c <> "x"%char.
Proof. ascii_cases c; simpl; intro; try discriminate. Qed.

Lemma dotted_no_prefix y :
  Spec.all_dotted y = true -> Py.startswith "0x" (Py.lower y) = false.
Proof.
  unfold Py.startswith. destruct y as [|c1 [|c2 r]]; intro H.
  - reflexivity.
  - cbn [Py.lower prefix]. destruct (ascii_dec "0" (Py.char_lower c1));
      reflexivity.
  - cbn [Py.lower prefix]. cbn [Spec.all_dotted] in H.
    apply andb_true_iff in H. destruct H as [_ H].
    apply andb_true_iff in H. destruct H as [H _].
    destruct (ascii_dec "0" (Py.char_lower c1)); [|reflexivity].
    destruct (ascii_dec "x" (Py.char_lower c2)) as [E|]; [|reflexivity].
    symmetry in E. now apply dotted_char_not_x in E.
Qed.

(** X8. The conversion is idempotent: what it returns is returned
    unchanged when converted again, since neither a dotted address nor
    the marker begins with the prefix. *)
Theorem address_conversion_idempotent (lastip ip_final : string) :
  convert_ip lastip = Ok ip_final -> convert_ip ip_final = Ok ip_final.
Proof.
  intro H. apply IpFacts.convert_ip_plain. unfold convert_ip in H.
  destruct (Py.startswith "0x" (Py.lower lastip)) eqn:Es.
  - destruct (group_values (hex_groups (Py.slice_from lastip 2)))
      as [vs|e] eqn:E; cbn [bind try_except] in H.
    + injection H as <-. apply (dotted_no_prefix (Spec.dotted vs)), dotted_all.
    + rewrite (IpFacts.group_values_raises _ _ E) in H. cbn in H.
      injection H as <-. reflexivity.
  - injection H as <-. exact Es.
Qed.

Lemma address_conversion_idempotent_witness :
  convert_ip "10.0.0.1" = Ok "10.0.0.1".
Proof.
  exact (address_conversion_idempotent "0x0A000001" "10.0.0.1" eq_refl).
Defined.

Lemma hex_single_table :
  forallb (fun a =>
    match PyNum.hex_digit a with
    | Some x =>
        match PyNum.int16 (String a "") with
        | Some v => (v =? x)%Z && (0 <=? v)%Z && (v <=? 15)%Z
        | None => false
        end
    | None => true
    end) Spec.all_ascii = true.
Proof. vm_compute. reflexivity. Qed.

Lemma int16_hex_single a x :
  PyNum.hex_digit a = Some x ->
  PyNum.int16 (String a "") = Some x /\ (0 <= x <= 255)%Z.
Proof.
  intro Ha. pose proof hex_single_table as T.
  rewrite forallb_forall in T.
  specialize (T a (IpFacts.all_ascii_complete a)). rewrite Ha in T.
  destruct (PyNum.int16 (String a "")) as [v|]; [|discriminate].
  apply andb_true_iff in T. destruct T as [T T3].
  apply andb_true_iff in T. destruct T as [T1 T2].
  apply Z.eqb_eq in T1. apply Z.leb_le in T2, T3. subst v. split; [|lia].
  reflexivity.
Qed.

Lemma group_values_hex s : forall vs,
  Spec.hex_values s = Some vs ->
  group_values (Spec.groups_of_two s) = Ok vs /\
  Forall (fun v => 0 <= v <= 255)%Z vs /\
  List.length vs = (length s + 1) / 2.
Proof.
  induction s as [|a|a b r IH] using IpFacts.string_pair_ind; intros vs H.
  - injection H as <-. repeat split. constructor.
  - cbn [Spec.hex_values] in H.
    destruct (PyNum.hex_digit a) as [x|] eqn:Ha; [|discriminate].
    injection H as <-. destruct (int16_hex_single a x Ha) as [Hi Hr].
    cbn [Spec.groups_of_two group_values]. rewrite Hi.
    repeat split. constructor; [exact Hr | constructor].
  - cbn [Spec.hex_values] in H.
    destruct (PyNum.hex_digit a) as [x|] eqn:Ha; [|discriminate].
    destruct (PyNum.hex_digit b) as [y|] eqn:Hb; [|discriminate].
    destruct (Spec.hex_values r) as [l|] eqn:Hr; [|discriminate].
    injection H as <-. destruct (IH l eq_refl) as (IHv & IHb & IHl).
    destruct (IpFacts.int16_hex_pair a b x y Ha Hb) as [Hi Hrange].
    cbn [Spec.groups_of_two group_values]. rewrite Hi, IHv.
    split; [reflexivity|]. split; [constructor; assumption|].
    cbn [List.length length]. rewrite IHl.
    replace (S (S (length r)) + 1) with (length r + 1 + 1 * 2) by lia.
    rewrite Nat.div_add by lia. lia.
Qed.

Lemma all_hex_values s :
  Spec.all_hex s = true -> exists vs, Spec.hex_values s = Some vs.
Proof.
  induction s as [|a|a b r IH] using IpFacts.string_pair_ind; intro H.
  - exists []. reflexivity.
  - cbn [Spec.all_hex] in H. apply andb_true_iff in H. destruct H as [Ha _].
    unfold Spec.is_hex in Ha. cbn [Spec.hex_values].
    destruct (PyNum.hex_digit a); [eauto | discriminate].
  - cbn [Spec.all_hex] in H. apply andb_true_iff in H. destruct H as [Ha H].
    apply andb_true_iff in H. destruct H as [Hb Hr].
    unfold Spec.is_hex in Ha, Hb. cbn [Spec.hex_values].
    destruct (PyNum.hex_digit a); [|discriminate].
    destruct (PyNum.hex_digit b); [|discriminate].
    destruct (IH Hr) as (l & ->). eauto.
Qed.

Lemma convert_ip_hex_values lastip vs :
  Py.startswith "0x" (Py.lower lastip) = true ->
  Spec.hex_values (Py.slice_from lastip 2) = Some vs ->
  convert_ip lastip = Ok (Spec.dotted vs).
Proof.
  intros Hs Hv. destruct (group_values_hex _ _ Hv) as (Hg & _).
  unfold convert_ip. rewrite Hs, IpFacts.hex_groups_of_two, Hg. reflexivity.
Qed.

(** X9. A field with the prefix whose remainder is made of hex digits
    only is never turned into the marker, whatever its length: the address
    is the dotted list of the values of its groups of two digits, a last
    digit alone making a group when the length is odd; there are as many
    values as groups, each between 0 and 255. *)
Theorem hex_digits_always_decode (lastip : string) :
  Py.startswith "0x" (Py.lower lastip) = true ->
  Spec.all_hex (Py.slice_from lastip 2) = true ->
  exists vs,
    Spec.hex_values (Py.slice_from lastip 2) = Some vs /\
    convert_ip lastip = Ok (Spec.dotted vs) /\
    Forall (fun v => 0 <= v <= 255)%Z vs /\
    List.length vs = (length (Py.slice_from lastip 2) + 1) / 2.
Proof.
  intros Hs Hh. destruct (all_hex_values _ Hh) as (vs & Hv).
  destruct (group_values_hex _ _ Hv) as (Hg & Hb & Hl).
  exists vs. repeat split; trivial.
  apply convert_ip_hex_values; assumption.
Qed.

Lemma hex_digits_always_decode_witness :
  exists vs,
    Spec.hex_values "7F00001" = Some vs /\
    convert_ip "0X7F00001" = Ok (Spec.dotted vs) /\
    Forall (fun v => 0 <= v <= 255)%Z vs /\
    List.length vs = 4.
Proof.
  exact (hex_digits_always_decode "0X7F00001" eq_refl eq_refl).
Defined.

Lemma char_lower_idempotent c : Py.char_lower (Py.char_lower c) = Py.char_lower c.
Proof. ascii_cases c; reflexivity. Qed.

Lemma hex_digit_lower c : PyNum.hex_digit (Py.char_lower c) = PyNum.hex_digit c.
Proof. ascii_cases c; reflexivity. Qed.

Lemma lower_idempotent s : Py.lower (Py.lower s) = Py.lower s.
Proof.
  induction s as [|c r IH]; simpl; trivial.
  now rewrite char_lower_idempotent, IH.
Qed.

Lemma lower_length s : length (Py.lower s) = length s.
Proof. induction s as [|c r IH]; simpl; congruence. Qed.

Lemma substring_lower s : forall n m,
  substring n m (Py.lower s) = Py.lower (substring n m s).
Proof.
  induction s as [|c r IH]; intros n m.
  - destruct n, m; reflexivity.
  - destruct n as [|n].
    + destruct m as [|m]; [reflexivity|]. simpl. now rewrite IH.
    + simpl. apply IH.
Qed.

Lemma slice_from_lower s lo :
  Py.slice_from (Py.lower s) lo = Py.lower (Py.slice_from s lo).
Proof.
  unfold Py.slice_from, Py.slice. rewrite lower_length. apply substring_lower.
Qed.

Lemma hex_values_lower s : Spec.hex_values (Py.lower s) = Spec.hex_values s.
Proof.
  induction s as [|a|a b r IH] using IpFacts.string_pair_ind.
  - reflexivity.
  - cbn [Py.lower Spec.hex_values]. now rewrite hex_digit_lower.
  - cbn [Py.lower Spec.hex_values]. now rewrite !hex_digit_lower, IH.
Qed.

Lemma all_hex_lower s : Spec.all_hex (Py.lower s) = Spec.all_hex s.
Proof.
  induction s as [|c r IH]; simpl; trivial.
  unfold Spec.is_hex. now rewrite hex_digit_lower, IH.
Qed.

(** X10. The decoding does not depend on the case of the letters: when
    the remainder is made of hex digits, the field in lower case gives
    the same address as the field itself. *)
Theorem decoding_ignores_case (lastip : string) :
  Py.startswith "0x" (Py.lower lastip) = true ->
  Spec.all_hex (Py.slice_from lastip 2) = true ->
  convert_ip (Py.lower lastip) = convert_ip lastip.
Proof.
  intros Hs Hh. destruct (all_hex_values _ Hh) as (vs & Hv).
  rewrite (convert_ip_hex_values lastip vs Hs Hv).
  apply convert_ip_hex_values.
  - now rewrite lower_idempotent.
  - now rewrite slice_from_lower, hex_values_lower.
Qed.

Lemma decoding_ignores_case_witness :
  convert_ip (Py.lower "0XC0A8FF01") = convert_ip "0XC0A8FF01".
Proof.
  exact (decoding_ignores_case "0XC0A8FF01" eq_refl eq_refl).
Defined.

(** ** The normalizer, further *)

Section NormalizerMore.

Variable P : platform.

(** X11. An exception leaves the normalizer only with at least 65 fields
    and only from the conversion of the timestamp; it is never a
    [ValueError] or a [TypeError], which the date block catches, and the
    reads of the fields never let an [IndexError] out. *)
Theorem only_date_exceptions_escape (fields : list string) (e : exn) :
  process_user P fields = Raise e ->
  65 <= List.length fields /\
  split_datetime P (nth 15 fields "") = Raise e /\
  e <> ValueError /\ e <> TypeError.
Proof.
  intro H. destruct (Nat.lt_ge_cases (List.length fields) 65) as [Hlt|Hge].
  - rewrite (process_user_short P fields Hlt) in H. discriminate.
  - split; [exact Hge|].
    destruct (process_user_record P fields Hge) as (ip & _ & Hp).
    rewrite Hp in H.
    destruct (split_datetime P (nth 15 fields "")) as [dt|e'] eqn:Ed;
      cbn [bind] in H; [discriminate|].
    injection H as ->. split; [reflexivity|].
    unfold split_datetime, except in Ed.
    destruct (ts <- int_float P (nth 15 fields "") ;; localtime P ts)
      as [dt|e1].
    + destruct (strftime P "%Y-%m-%d" dt) as [cd|e2].
      * destruct (strftime P "%H:%M:%S" dt) as [ct|e3]; [discriminate|].
        destruct e3; cbn in Ed; try discriminate;
          injection Ed as <-; split; discriminate.
      * destruct e2; cbn in Ed; try discriminate;
          injection Ed as <-; split; discriminate.
    + destruct e1; cbn in Ed; try discriminate;
        injection Ed as <-; split; discriminate.
Qed.

(** X12. With at least 65 fields, a timestamp that [float] reads as an
    infinity, written as such or by overflow, makes the normalizer raise
    [OverflowError]: no record, no skip. *)
Theorem infinite_timestamp_escapes (fields : list string) :
  65 <= List.length fields ->
  PyNum.float_syntax (nth 15 fields "") = Some PyNum.FInf \/
  (PyNum.float_syntax (nth 15 fields "") = Some PyNum.FNum /\
   strtod_trunc P (nth 15 fields "") = None) ->
  process_user P fields = Raise OverflowError.
Proof.
  intros H Hf. destruct (process_user_record P fields H) as (ip & _ & ->).
  unfold split_datetime, int_float.
  destruct Hf as [-> | [-> ->]]; reflexivity.
Qed.

(** X13. With at least 65 fields, a timestamp that [float] reads as
    not-a-number is treated like an unreadable one: the record is
    returned with both date and time set to the text (invalid). *)
Theorem nan_timestamp_is_invalid (fields : list string) :
  65 <= List.length fields ->
  PyNum.float_syntax (nth 15 fields "") = Some PyNum.FNan ->
  exists ip_final,
    convert_ip (nth 64 fields "") = Ok ip_final /\
    process_user P fields =
    Ok (Some (mk_user (nth 1 fields "") (nth 5 fields "") "(invalid)"
                "(invalid)" ip_final (nth 2 fields "")), None).
Proof.
  intros H Hf. destruct (process_user_record P fields H) as (ip & E & ->).
  exists ip. split; [exact E|].
  unfold split_datetime, int_float. rewrite Hf. reflexivity.
Qed.

End NormalizerMore.

Lemma only_date_exceptions_escape_witness :
  65 <= List.length
          (Demo.row "alice" "hash123" "alice@example.com" "-inf" "1.2.3.4") /\
  Demo.split_datetime "-inf" = Raise OverflowError /\
  OverflowError <> ValueError /\ OverflowError <> TypeError.
Proof.
  exact (only_date_exceptions_escape Demo.utc
           (Demo.row "alice" "hash123" "alice@example.com" "-inf" "1.2.3.4")
           OverflowError eq_refl).
Defined.

Lemma infinite_timestamp_escapes_witness :
  Demo.process_user
    (Demo.row "alice" "hash123" "alice@example.com" "Infinity" "1.2.3.4")
  = Raise OverflowError.
Proof.
  apply (infinite_timestamp_escapes Demo.utc
           (Demo.row "alice" "hash123" "alice@example.com" "Infinity"
              "1.2.3.4")).
  - simpl. lia.
  - left. reflexivity.
Defined.

Lemma nan_timestamp_is_invalid_witness :
  exists ip_final,
    convert_ip "1.2.3.4" = Ok ip_final /\
    Demo.process_user
      (Demo.row "alice" "hash123" "alice@example.com" "nan" "1.2.3.4")
    = Ok (Some (mk_user "alice" "alice@example.com" "(invalid)" "(invalid)"
                  ip_final "hash123"), None).
Proof.
  apply (nan_timestamp_is_invalid Demo.utc
           (Demo.row "alice" "hash123" "alice@example.com" "nan" "1.2.3.4")).
  - simpl. lia.
  - reflexivity.
Defined.

(** ** The loop, further *)

Lemma csv_rows_app a b :
  Program.csv_rows (a ++ b) = (Program.csv_rows a ++ Program.csv_rows b)%list.
Proof.
  induction a as [|e a IH]; [reflexivity|].
  destruct e; cbn [app Program.csv_rows]; now rewrite IH.
Qed.

Lemma div_500_step p :
  S p / 500 = if (S p mod 500 =? 0)%nat then S (p / 500) else p / 500.
Proof.
  pose proof (Nat.div_mod_eq p 500) as H1.
  pose proof (Nat.div_mod_eq (S p) 500) as H2.
  pose proof (Nat.mod_upper_bound p 500 ltac:(lia)) as H3.
  pose proof (Nat.mod_upper_bound (S p) 500 ltac:(lia)) as H4.
  destruct (Nat.eqb_spec (S p mod 500) 0); lia.
Qed.

Section LoopMore.

Variable P : platform.

Lemma loop_body_emits (csv : bool) (st st' : loop_state) (line : string) :
  loop_body P csv st line = Ok st' ->
  st' = st \/ exists u, emit csv st (Some u) = Ok st'.
Proof.
  unfold loop_body. intro H.
  destruct (negb (Py.truthy (Py.strip line))
            || negb (Py.contains "@" (Py.strip line)));
    [left; congruence|].
  destruct (parse_values_line (Py.strip line)) as [fields|];
    [|left; congruence].
  destruct ((List.length fields =? 0)%nat || (List.length fields <=? 64)%nat);
    [left; congruence|].
  destruct (process_user P fields) as [[user_data error]|e];
    cbn [bind fst snd] in H; [|discriminate].
  destruct (error_set error); [left; congruence|].
  destruct user_data as [u|]; [|discriminate]. right. eauto.
Qed.

Lemma emit_counted (csv : bool) (st st' : loop_state) (u : user) :
  emit csv st (Some u) = Ok st' ->
  Program.output_counted csv st -> Program.output_counted csv st'.
Proof.
  unfold Program.output_counted. cbn [emit]. intros H (Hu & Hr & Hp & Hc).
  pose proof (div_500_step (processed st)) as Hd.
  destruct (S (processed st) mod 500 =? 0)%nat; destruct csv;
    cbn [andb negb] in H; injection H as <-;
    cbn [output valid_users processed];
    rewrite ?filter_app, ?csv_rows_app, ?length_app;
    cbn [filter Program.is_user_event Program.is_progress Program.csv_rows
           List.length];
    (split; [lia | split; [lia | split; [lia|]]]);
    repeat (apply Forall_app; split); trivial; repeat constructor.
Qed.

Lemma loop_body_counted (csv : bool) (st st' : loop_state) (line : string) :
  loop_body P csv st line = Ok st' ->
  Program.output_counted csv st -> Program.output_counted csv st'.
Proof.
  intros H Hc. destruct (loop_body_emits csv st st' line H) as [->|(u & Hu)].
  - exact Hc.
  - exact (emit_counted csv st st' u Hu Hc).
Qed.

Lemma main_loop_counted (csv : bool) (lines : list string) : forall st,
  Program.output_counted csv st -> Program.output_counted csv (fst (main_loop P csv st lines)).
Proof.
  induction lines as [|line rest IH]; intros st Hc; cbn [main_loop].
  - exact Hc.
  - destruct (loop_body P csv st line) as [st'|e] eqn:Eb; [|exact Hc].
    apply IH, (loop_body_counted csv st st' line Eb Hc).
Qed.

Lemma initial_counted (csv : bool) : Program.output_counted csv initial.
Proof. unfold Program.output_counted. destruct csv; repeat split; constructor. Qed.

(** X14. In the state the loop stops in, the output holds exactly one
    row or one block of text per valid user: with a CSV writer, as many
    rows of six columns as valid users; without one, no row. *)
Theorem one_output_per_valid_user (csv : bool) (lines : list string) :
  let st := fst (main_loop P csv initial lines) in
  List.length (filter Program.is_user_event (output st)) = valid_users st /\
  List.length (Program.csv_rows (output st))
  = (if csv then valid_users st else 0) /\
  Forall (fun row => List.length row = 6) (Program.csv_rows (output st)).
Proof.
  destruct (main_loop_counted csv lines initial (initial_counted csv))
    as (Hu & Hr & _ & Hc).
  cbv zeta. auto.
Qed.

(** X15. A progress line is printed only without a CSV writer, once
    every 500 lines processed: their number is the quotient of the
    counter by 500, and none is printed with a CSV writer. *)
Theorem progress_every_500 (csv : bool) (lines : list string) :
  let st := fst (main_loop P csv initial lines) in
  List.length (filter Program.is_progress (output st))
  = if csv then 0 else processed st / 500.
Proof.
  destruct (main_loop_counted csv lines initial (initial_counted csv))
    as (_ & _ & Hp & _).
  exact Hp.
Qed.

Lemma main_loop_bounded (csv : bool) (lines : list string) : forall st,
  processed (fst (main_loop P csv st lines))
  <= processed st + List.length lines.
Proof.
  induction lines as [|line rest IH]; intro st; cbn [main_loop List.length].
  - cbn [fst]. lia.
  - destruct (loop_body P csv st line) as [st'|e] eqn:Eb; [|cbn [fst]; lia].
    specialize (IH st').
    destruct (loop_body_step P csv st st' line Eb)
      as [->|(_ & _ & _ & Hp & _)]; lia.
Qed.

(** X16. The loop counts at most one user per line: the counters never
    exceed the number of lines read. *)
Theorem counters_bounded_by_lines (csv : bool) (lines : list string) :
  let st := fst (main_loop P csv initial lines) in
  processed st <= List.length lines /\ valid_users st <= List.length lines.
Proof.
  cbv zeta. pose proof (main_loop_bounded csv lines initial) as H.
  pose proof (run_keeps P csv lines initial eq_refl) as E.
  cbn [processed initial] in H. lia.
Qed.

(** X18. The lines that, once trimmed, do not contain an at sign are only
    skipped: taking them out of the input changes neither the state the
    loop stops in nor the exception that stops it. *)
Theorem lines_without_at_sign_are_invisible (csv : bool) (st : loop_state)
    (lines : list string) :
  main_loop P csv st lines
  = main_loop P csv st
      (filter (fun line => Py.contains "@" (Py.strip line)) lines).
Proof.
  revert st. induction lines as [|line rest IH]; intro st; [reflexivity|].
  cbn [filter]. destruct (Py.contains "@" (Py.strip line)) eqn:E.
  - cbn [main_loop]. destruct (loop_body P csv st line); [apply IH|].
    reflexivity.
  - cbn [main_loop]. unfold loop_body at 1. rewrite E.
    rewrite orb_true_r. apply IH.
Qed.

End LoopMore.


